(** * gemini-mcp: the tool handlers of [src/index.ts], embedded and verified

    The server receives a tool name and an argument value parsed from JSON,
    builds one request for the Gemini HTTP API and turns the answer, or any
    error, into a tool result.  The TypeScript annotations are erased when
    the program runs and the arguments are cast without a check, so the
    embedding works on JSON values as JavaScript sees them: property reads,
    optional chaining, truthiness, [trim], template literals. *)

From Stdlib Require Import List NArith Bool String Ascii Lia DecimalString.
Import ListNotations.
Local Open Scope N_scope.
Local Open Scope list_scope.

(** ** Strings *)

(** A JavaScript string is a sequence of UTF-16 code units. *)
Definition jsstring := list N.

(** The code unit sequence of an ASCII literal of the source. *)
Definition lit (s : string) : jsstring :=
  map N_of_ascii (list_ascii_of_string s).

(** The escape [\n] of the source's literals. *)
Definition LF : jsstring := [10].

Fixpoint str_eqb (a b : jsstring) : bool :=
  match a, b with
  | [], [] => true
  | x :: a', y :: b' => (x =? y) && str_eqb a' b'
  | _, _ => false
  end.

(** Decimal rendering of a natural number, as [String(n)] prints an integer. *)
Definition dec (n : N) : jsstring :=
  lit (NilZero.string_of_uint (N.to_uint n)).

(** WhiteSpace and LineTerminator code units, the ones [String.prototype.trim]
    strips (ECMA-262, TrimString). *)
Definition is_white_space (c : N) : bool :=
  (c =? 9) || (c =? 10) || (c =? 11) || (c =? 12) || (c =? 13) || (c =? 32)
  || (c =? 160) || (c =? 5760) || ((8192 <=? c) && (c <=? 8202))
  || (c =? 8232) || (c =? 8233) || (c =? 8239) || (c =? 8287)
  || (c =? 12288) || (c =? 65279).

Fixpoint trimStart (s : jsstring) : jsstring :=
  match s with
  | [] => []
  | c :: s' => if is_white_space c then trimStart s' else s
  end.

Definition trimEnd (s : jsstring) : jsstring := rev (trimStart (rev s)).

Definition trim (s : jsstring) : jsstring := trimEnd (trimStart s).

(** A string is blank when every code unit of it is white space. *)
Definition blank (s : jsstring) : bool := forallb is_white_space s.

(** ** Values *)

(** A number is kept as the text [String(n)] prints for it, which identifies
    a double up to the sign of zero; the program only tests numbers for
    truthiness and interpolates them. *)
Inductive number : Type := Num (text : jsstring).

#[local] Set Warnings "-register-all".

(** The values [JSON.parse] produces, and [undefined]. *)
Inductive JsValue : Type :=
| JUndefined
| JNull
| JBool (b : bool)
| JNum (n : number)
| JStr (s : jsstring)
| JArr (elems : list JsValue)
| JObj (props : list (jsstring * JsValue)).

Definition nullish (v : JsValue) : bool :=
  match v with JUndefined | JNull => true | _ => false end.

(** ToBoolean. *)
Definition truthy (v : JsValue) : bool :=
  match v with
  | JUndefined | JNull => false
  | JBool b => b
  | JNum (Num t) => negb (str_eqb t (lit "0") || str_eqb t (lit "NaN"))
  | JStr s => negb (str_eqb s [])
  | JArr _ | JObj _ => true
  end.

Definition isArray (v : JsValue) : bool :=
  match v with JArr _ => true | _ => false end.

Fixpoint lookup (k : jsstring) (props : list (jsstring * JsValue)) : option JsValue :=
  match props with
  | [] => None
  | (k', v) :: rest => if str_eqb k k' then Some v else lookup k rest
  end.

(** A property key: a name, or an array index. *)
Inductive Key : Type := Name (s : jsstring) | Index (i : N).

(** ** Errors *)

(** TypeErrors the engine raises by itself.  Their wording belongs to the
    engine and to the compilation target, so it is read from the platform. *)
Inductive Fault : Type :=
| ReadOfNullish (base : JsValue) (k : Key)
| NotAFunction (member : jsstring)
| NoPrimitiveValue.

(** What a [throw] carries: every throw site of the program, and every
    rejection of the platform, raises an instance of [Error]. *)
Inductive Exn : Type :=
| JsError (message : jsstring)
| EngineError (f : Fault).

Definition Result (A : Type) : Type := (Exn + A)%type.

(** ** Property access *)

(** [v[k]] for a value that is not nullish.  Own data properties only: the
    program reads no name that a built-in prototype defines, apart from
    [length] of an array. *)
Definition GetV (v : JsValue) (k : Key) : JsValue :=
  match v, k with
  | JObj props, Name s => match lookup s props with Some x => x | None => JUndefined end
  | JObj props, Index i => match lookup (dec i) props with Some x => x | None => JUndefined end
  | JArr l, Index i => nth (N.to_nat i) l JUndefined
  | JArr l, Name s =>
      if str_eqb s (lit "length") then JNum (Num (dec (N.of_nat (List.length l)))) else JUndefined
  | JStr s, Index i =>
      match nth_error s (N.to_nat i) with Some c => JStr [c] | None => JUndefined end
  | JStr s, Name n =>
      if str_eqb n (lit "length") then JNum (Num (dec (N.of_nat (List.length s)))) else JUndefined
  | _, _ => JUndefined
  end.

(** [v.k]: reading a property of [undefined] or [null] throws. *)
Definition Get (v : JsValue) (k : Key) : Result JsValue :=
  if nullish v then inl (EngineError (ReadOfNullish v k)) else inr (GetV v k).

(** [v?.k]. *)
Definition GetOpt (v : JsValue) (k : Key) : JsValue :=
  if nullish v then JUndefined else GetV v k.

(** [v?.trim()]: [undefined] on a nullish value, the trimmed string on a
    string; no other JSON value has a callable [trim]. *)
Definition trimOpt (v : JsValue) : Result JsValue :=
  match v with
  | JUndefined | JNull => inr JUndefined
  | JStr s => inr (JStr (trim s))
  | _ => inl (EngineError (NotAFunction (lit "trim")))
  end.

(** [Array.prototype.join] with the separator [","], over the texts of the
    elements; the first element that fails to convert makes the join fail. *)
Fixpoint join (texts : list (Result jsstring)) : Result jsstring :=
  match texts with
  | [] => inr []
  | r :: rest =>
      match r with
      | inl e => inl e
      | inr sx =>
          match rest with
          | [] => inr sx
          | _ :: _ =>
              match join rest with
              | inl e => inl e
              | inr sr => inr (sx ++ lit "," ++ sr)
              end
          end
      end
  end.

(** ToString, as a template literal applies it.  An array prints the join of
    its elements, [null] and [undefined] elements as the empty string.  An
    object parsed from JSON prints through [Object.prototype.toString] unless
    an own property [toString] hides it; that property cannot be callable, so
    the conversion falls back to [valueOf], which yields no primitive either
    way. *)
Fixpoint ToString (v : JsValue) : Result jsstring :=
  match v with
  | JUndefined => inr (lit "undefined")
  | JNull => inr (lit "null")
  | JBool true => inr (lit "true")
  | JBool false => inr (lit "false")
  | JNum (Num t) => inr t
  | JStr s => inr s
  | JArr l => join (map (fun x => if nullish x then inr [] else ToString x) l)
  | JObj props =>
      match lookup (lit "toString") props with
      | Some _ => inl (EngineError NoPrimitiveValue)
      | None => inr (lit "[object Object]")
      end
  end.

(** ** Types of the source *)

Record Part : Type := { text : JsValue }.

(** [interface GeminiMessage].  The role is declared ["user" | "model"]; the
    chat handler copies it from the arguments unchecked, so it is a value. *)
Record GeminiMessage : Type := { role : JsValue; parts : list Part }.

Record GenerationConfig : Type :=
  { temperature : option number; maxOutputTokens : option number }.

(** [interface GeminiRequest]. *)
Record GeminiRequest : Type :=
  { contents : list GeminiMessage; generationConfig : option GenerationConfig }.

(** ** The platform *)

(** The argument of [fetch].  The body is [JSON.stringify(requestBody)]; the
    model keeps the value that is serialized. *)
Record HttpRequest : Type :=
  { url : jsstring;
    method : jsstring;
    headers : list (jsstring * jsstring);
    body : GeminiRequest }.

(** What the program reads of a [Response]: the status, and the body through
    [text()] and through [json()], either of which may reject. *)
Record Response : Type :=
  { status : N;
    body_text : Result jsstring;
    body_json : Result JsValue }.

(** [response.ok]: the status is in the range 200-299 (Fetch standard). *)
Definition ok (r : Response) : bool := (200 <=? status r) && (status r <=? 299).

(** The environment variable, the upstream server behind [fetch] (which may
    reject), and the engine's wording of its own TypeErrors. *)
Record World : Type :=
  { GEMINI_API_KEY : option jsstring;
    fetch : HttpRequest -> Result Response;
    fault_text : Fault -> jsstring }.

(** ** Effects: the requests sent so far, and a result or a thrown error *)

Definition Eff (A : Type) : Type := (list HttpRequest * Result A)%type.

Definition ret {A} (a : A) : Eff A := ([], inr a).

Definition throw {A} (e : Exn) : Eff A := ([], inl e).

Definition bind {A B} (m : Eff A) (f : A -> Eff B) : Eff B :=
  match m with
  | (sent, inl e) => (sent, inl e)
  | (sent, inr a) => let (sent', r) := f a in (sent ++ sent', r)
  end.

(** A pure computation that may throw. *)
Definition lift {A} (r : Result A) : Eff A := ([], r).

Declare Scope eff_scope.
Delimit Scope eff_scope with eff.
Notation "x <- m ;; k" := (bind m (fun x => k))
  (at level 61, m at next level, right associativity) : eff_scope.
Local Open Scope eff_scope.

(** [await fetch(url, init)]: one request goes out. *)
Definition await_fetch (w : World) (req : HttpRequest) : Eff Response :=
  ([req], fetch w req).

Definition sent {A} (m : Eff A) : list HttpRequest := fst m.

Definition outcome {A} (m : Eff A) : Result A := snd m.

(** [Array.prototype.map] with a callback that may throw. *)
Fixpoint mapM {A B} (f : A -> Eff B) (l : list A) : Eff (list B) :=
  match l with
  | [] => ret []
  | x :: rest => y <- f x ;; ys <- mapM f rest ;; ret (y :: ys)
  end.

(** A template literal: the pieces, converted with ToString from left to
    right, concatenated. *)
Fixpoint template (pieces : list JsValue) : Result jsstring :=
  match pieces with
  | [] => inr []
  | p :: rest =>
      match ToString p with
      | inl e => inl e
      | inr s => match template rest with inl e => inl e | inr t => inr (s ++ t) end
      end
  end.

(** ** Constants *)

Definition GEMINI_API_BASE : jsstring :=
  lit "https://generativelanguage.googleapis.com/v1beta/models".

Definition DEFAULT_MODEL : jsstring := lit "gemini-2.5-flash-preview-05-20".

(** ** getApiKey *)

Definition getApiKey (w : World) : Eff jsstring :=
  match GEMINI_API_KEY w with
  | Some apiKey =>
      if truthy (JStr apiKey) then ret apiKey
      else throw (JsError (lit "GEMINI_API_KEY environment variable is required. "
                           ++ lit "Get your API key from https://aistudio.google.com/apikey"))
  | None =>
      throw (JsError (lit "GEMINI_API_KEY environment variable is required. "
                      ++ lit "Get your API key from https://aistudio.google.com/apikey"))
  end.

(** ** callGemini *)

(** A parameter with a default value takes it when the argument is absent or
    [undefined]. *)
Definition or_default_value (v d : JsValue) : JsValue :=
  match v with JUndefined => d | _ => v end.

Definition or_default_number (v : option number) (d : number) : number :=
  match v with Some n => n | None => d end.

(** [data.candidates?.[0]?.content?.parts?.[0]?.text]. *)
Definition candidate_text (data : JsValue) : Result JsValue :=
  match Get data (Name (lit "candidates")) with
  | inl e => inl e
  | inr candidates =>
      inr (GetOpt (GetOpt (GetOpt (GetOpt (GetOpt candidates (Index 0))
                                     (Name (lit "content")))
                             (Name (lit "parts")))
                     (Index 0))
             (Name (lit "text")))
  end.

Definition callGemini (w : World) (messages : list GeminiMessage) (model : JsValue)
    (temperature maxTokens : option number) : Eff JsValue :=
  let model := or_default_value model (JStr DEFAULT_MODEL) in
  let temperature := or_default_number temperature (Num (lit "0.7")) in
  let maxTokens := or_default_number maxTokens (Num (lit "8192")) in
  apiKey <- getApiKey w ;;
  url <- lift (template [JStr GEMINI_API_BASE; JStr (lit "/"); model;
                         JStr (lit ":generateContent")]) ;;
  let requestBody :=
    {| contents := messages;
       generationConfig := Some {| temperature := Some temperature;
                                   maxOutputTokens := Some maxTokens |} |} in
  response <- await_fetch w
    {| url := url;
       method := lit "POST";
       headers := [(lit "Content-Type", lit "application/json");
                   (lit "x-goog-api-key", apiKey)];
       body := requestBody |} ;;
  if negb (ok response) then
    errorText <- lift (body_text response) ;;
    throw (JsError (lit "Gemini API error (" ++ dec (status response) ++ lit "): "
                    ++ errorText))
  else
    data <- lift (body_json response) ;;
    error <- lift (Get data (Name (lit "error"))) ;;
    if truthy error then
      message <- lift (Get error (Name (lit "message"))) ;;
      shown <- lift (ToString (if truthy message then message
                               else JStr (lit "Unknown error"))) ;;
      throw (JsError (lit "Gemini API error: " ++ shown))
    else
      text <- lift (candidate_text data) ;;
      if negb (truthy text) then throw (JsError (lit "No response content from Gemini"))
      else ret text.

(** ** Tool handlers *)

(** [a || b]. *)
Definition or_else (a b : JsValue) : JsValue := if truthy a then a else b.

Definition user_message (t : JsValue) : GeminiMessage :=
  {| role := JStr (lit "user"); parts := [ {| text := t |} ] |}.

Definition handleGeminiAnalyze (w : World) (args : JsValue) : Eff JsValue :=
  prompt <- lift (Get args (Name (lit "prompt"))) ;;
  trimmed <- lift (trimOpt prompt) ;;
  if negb (truthy trimmed) then
    throw (JsError (lit "prompt is required and cannot be empty"))
  else
    context <- lift (Get args (Name (lit "context"))) ;;
    trimmedContext <- lift (trimOpt context) ;;
    fullPrompt <-
      (if truthy trimmedContext then
         s <- lift (template [prompt; JStr (LF ++ LF ++ lit "--- Context ---" ++ LF);
                              context]) ;;
         ret (JStr s)
       else ret prompt) ;;
    let messages := [user_message fullPrompt] in
    model <- lift (Get args (Name (lit "model"))) ;;
    callGemini w messages (or_else model (JStr DEFAULT_MODEL)) None None.

(** The elements of an array; [length] counts them. *)
Definition elements (v : JsValue) : list JsValue :=
  match v with JArr l => l | _ => [] end.

Definition array_length (v : JsValue) : N := N.of_nat (List.length (elements v)).

Definition handleGeminiChat (w : World) (args : JsValue) : Eff JsValue :=
  messages <- lift (Get args (Name (lit "messages"))) ;;
  if negb (truthy messages) || negb (isArray messages) || (array_length messages =? 0) then
    throw (JsError (lit "messages array is required and cannot be empty"))
  else
    geminiMessages <-
      mapM (fun msg =>
              r <- lift (Get msg (Name (lit "role"))) ;;
              c <- lift (Get msg (Name (lit "content"))) ;;
              ret {| role := r; parts := [ {| text := c |} ] |})
           (elements messages) ;;
    model <- lift (Get args (Name (lit "model"))) ;;
    callGemini w geminiMessages (or_else model (JStr DEFAULT_MODEL)) None None.

Definition handleGeminiSummarize (w : World) (args : JsValue) : Eff JsValue :=
  content <- lift (Get args (Name (lit "content"))) ;;
  trimmed <- lift (trimOpt content) ;;
  if negb (truthy trimmed) then
    throw (JsError (lit "content is required and cannot be empty"))
  else
    focus <- lift (Get args (Name (lit "focus"))) ;;
    trimmedFocus <- lift (trimOpt focus) ;;
    prompt <-
      (if truthy trimmedFocus then
         lift (template
                 [JStr (lit "Please summarize the following content, focusing specifically on: ");
                  focus; JStr (LF ++ LF)])
       else ret (lit "Please provide a concise summary of the following content:" ++ LF ++ LF)) ;;
    content' <- lift (ToString content) ;;
    let prompt := prompt ++ content' in
    let messages := [user_message (JStr prompt)] in
    model <- lift (Get args (Name (lit "model"))) ;;
    callGemini w messages (or_else model (JStr DEFAULT_MODEL)) (Some (Num (lit "0.5"))) None.

(** ** The tool-call request handler *)

Record ContentItem : Type := { item_type : jsstring; item_text : JsValue }.

(** The result of a tool call; [isError] is absent on success. *)
Record CallToolResult : Type :=
  { content : list ContentItem; isError : option bool }.

(** What is thrown is an instance of [Error]; its [message] is the one it was
    built with, or the engine's own text. *)
Definition message_of (w : World) (e : Exn) : jsstring :=
  match e with
  | JsError m => m
  | EngineError f => fault_text w f
  end.

(** The body of the [try] block: the [switch] over the tool name. *)
Definition run_tool (w : World) (name : jsstring) (args : JsValue) : Eff JsValue :=
  if str_eqb name (lit "gemini_analyze") then handleGeminiAnalyze w args
  else if str_eqb name (lit "gemini_chat") then handleGeminiChat w args
  else if str_eqb name (lit "gemini_summarize") then handleGeminiSummarize w args
  else throw (JsError (lit "Unknown tool: " ++ name)).

(** The handler registered for [CallToolRequestSchema]: [try] the tool,
    [catch] whatever it throws.  Everything thrown here is an instance of
    [Error], so the text shown is its [message]. *)
Definition callTool (w : World) (name : jsstring) (args : JsValue)
    : list HttpRequest * CallToolResult :=
  match run_tool w name args with
  | (reqs, inr result) =>
      (reqs, {| content := [ {| item_type := lit "text"; item_text := result |} ];
                isError := None |})
  | (reqs, inl error) =>
      (reqs, {| content := [ {| item_type := lit "text";
                                item_text := JStr (lit "Error: " ++ message_of w error) |} ];
                isError := Some true |})
  end.

(** ** Notions used in the statements *)

(** The request [callGemini] builds. *)
Definition gemini_request (apiKey model : jsstring) (messages : list GeminiMessage)
    (temperature maxTokens : number) : HttpRequest :=
  {| url := GEMINI_API_BASE ++ lit "/" ++ model ++ lit ":generateContent";
     method := lit "POST";
     headers := [(lit "Content-Type", lit "application/json");
                 (lit "x-goog-api-key", apiKey)];
     body := {| contents := messages;
                generationConfig := Some {| temperature := Some temperature;
                                            maxOutputTokens := Some maxTokens |} |} |}.

(** What [callGemini] does with the answer to its request. *)
Definition read_response (r : Result Response) : Result JsValue :=
  match r with
  | inl e => inl e
  | inr response =>
      if negb (ok response) then
        match body_text response with
        | inl e => inl e
        | inr errorText =>
            inl (JsError (lit "Gemini API error (" ++ dec (status response) ++ lit "): "
                          ++ errorText))
        end
      else
        match body_json response with
        | inl e => inl e
        | inr data =>
            match Get data (Name (lit "error")) with
            | inl e => inl e
            | inr error =>
                if truthy error then
                  match ToString (or_else (GetV error (Name (lit "message")))
                                          (JStr (lit "Unknown error"))) with
                  | inl e => inl e
                  | inr shown => inl (JsError (lit "Gemini API error: " ++ shown))
                  end
                else
                  match candidate_text data with
                  | inl e => inl e
                  | inr text =>
                      if truthy text then inr text
                      else inl (JsError (lit "No response content from Gemini"))
                  end
            end
        end
  end.


(** [args.k] on an argument value that is not nullish. *)
Definition field (args : JsValue) (k : string) : JsValue := GetV args (Name (lit k)).

(** An optional string field: absent, [null], or a string. *)
Definition optional_string (v : JsValue) : bool :=
  match v with JUndefined | JNull | JStr _ => true | _ => false end.

(** A required string field is violated when it is absent, [null], or a
    blank string. *)
Definition missing_or_blank (v : JsValue) : bool :=
  match v with JUndefined | JNull => true | JStr s => blank s | _ => false end.

(** The model an optional string selects. *)
Definition chosen_model (v : JsValue) : jsstring :=
  match v with
  | JStr ((_ :: _) as m) => m
  | _ => DEFAULT_MODEL
  end.

(** The text of the analyze message for a prompt and a context field. *)
Definition analyze_text (p : jsstring) (context : JsValue) : jsstring :=
  match context with
  | JStr c => if blank c then p else p ++ LF ++ LF ++ lit "--- Context ---" ++ LF ++ c
  | _ => p
  end.

(** The text of the summarize message for a content and a focus field. *)
Definition summarize_text (c : jsstring) (focus : JsValue) : jsstring :=
  match focus with
  | JStr f =>
      if blank f then
        lit "Please provide a concise summary of the following content:" ++ LF ++ LF ++ c
      else
        lit "Please summarize the following content, focusing specifically on: "
        ++ f ++ LF ++ LF ++ c
  | _ => lit "Please provide a concise summary of the following content:" ++ LF ++ LF ++ c
  end.

(** The upstream message of one chat turn. *)
Definition turn_message (msg : JsValue) : GeminiMessage :=
  {| role := field msg "role"; parts := [ {| text := field msg "content" |} ] |}.

(** The test of the chat handler on its [messages] field. *)
Definition no_turns (messages : JsValue) : bool :=
  negb (truthy messages) || negb (isArray messages) || (array_length messages =? 0).

(** ** Sample platforms and requests *)

Definition DQ : jsstring := [34].

(** A JSON object with one string-valued member, as text. *)
Definition answer_json (t : jsstring) : jsstring :=
  lit "{" ++ DQ ++ lit "candidates" ++ DQ ++ lit ":[{" ++ DQ ++ lit "content" ++ DQ
  ++ lit ":{" ++ DQ ++ lit "parts" ++ DQ ++ lit ":[{" ++ DQ ++ lit "text" ++ DQ ++ lit ":"
  ++ DQ ++ t ++ DQ ++ lit "}]}}]}".

(** The answer of an upstream server that generated the text [t]. *)
Definition answer (t : jsstring) : Response :=
  {| status := 200;
     body_text := inr (answer_json t);
     body_json :=
       inr (JObj [(lit "candidates",
                   JArr [JObj [(lit "content",
                                JObj [(lit "parts",
                                       JArr [JObj [(lit "text", JStr t)]])])]])]) |}.

(** A success answer without candidates: the body [{}]. *)
Definition empty_answer : Response :=
  {| status := 200; body_text := inr (lit "{}"); body_json := inr (JObj []) |}.

Definition sample_fault_text (f : Fault) : jsstring :=
  match f with
  | ReadOfNullish _ _ => lit "Cannot read properties of undefined"
  | NotAFunction m => m ++ lit " is not a function"
  | NoPrimitiveValue => lit "Cannot convert object to primitive value"
  end.

(** A platform with an API key whose upstream answers every request [hi]. *)
Definition answering_world : World :=
  {| GEMINI_API_KEY := Some (lit "test-key");
     fetch := fun _ => inr (answer (lit "hi"));
     fault_text := sample_fault_text |}.

(** A platform with an API key whose upstream answers [{}]. *)
Definition silent_world : World :=
  {| GEMINI_API_KEY := Some (lit "test-key");
     fetch := fun _ => inr empty_answer;
     fault_text := sample_fault_text |}.

(** The models the README lists as available. *)
Definition AVAILABLE_MODELS : list jsstring :=
  [lit "gemini-2.5-flash-preview-05-20"; lit "gemini-2.5-pro-preview-05-06";
   lit "gemini-2.0-flash"].

Definition analyze_unknown_model : JsValue :=
  JObj [(lit "prompt", JStr (lit "X")); (lit "model", JStr (lit "not-a-real-model"))].

Definition user_turn (c : jsstring) : JsValue :=
  JObj [(lit "role", JStr (lit "user")); (lit "content", JStr c)].

Definition model_turn (c : jsstring) : JsValue :=
  JObj [(lit "role", JStr (lit "model")); (lit "content", JStr c)].

Definition chat_two_empty_turns : JsValue :=
  JObj [(lit "messages", JArr [user_turn []; model_turn []])].

(** The constraints the specification puts on the turns of a chat request
    (role one of user and model, content a non-empty string), as the list of
    the violated fields, each with the index of its turn. *)
Definition spec_turn_violations (i : N) (turn : JsValue) : list (N * jsstring) :=
  (match field turn "role" with
   | JStr r => if str_eqb r (lit "user") || str_eqb r (lit "model") then []
               else [(i, lit "role")]
   | _ => [(i, lit "role")]
   end)
  ++
  (match field turn "content" with
   | JStr (_ :: _) => []
   | _ => [(i, lit "content")]
   end).

Fixpoint spec_turns_violations (i : N) (turns : list JsValue) : list (N * jsstring) :=
  match turns with
  | [] => []
  | t :: rest => spec_turn_violations i t ++ spec_turns_violations (i + 1) rest
  end.

Definition analyze_blank_context : JsValue :=
  JObj [(lit "prompt", JStr (lit "X")); (lit "context", JStr (lit " "))].

Definition analyze_with_context : JsValue :=
  JObj [(lit "prompt", JStr (lit "X")); (lit "context", JStr (lit "Y"))].

Definition summarize_plain : JsValue := JObj [(lit "content", JStr (lit "ABC"))].

Definition summarize_focused : JsValue :=
  JObj [(lit "content", JStr (lit "ABC")); (lit "focus", JStr (lit "bugs"))].

Definition chat_hi : JsValue := JObj [(lit "messages", JArr [user_turn (lit "hi")])].

Definition analyze_empty_model : JsValue :=
  JObj [(lit "prompt", JStr (lit "X")); (lit "model", JStr [])].

(** A summarize request without content, with a focus of 1001 characters. *)
Definition summarize_two_violations : JsValue :=
  JObj [(lit "focus", JStr (repeat 97 1001))].

(** [candidates[0].content.parts[0].text] of a response body, [undefined]
    when a link of the chain is missing. *)
Definition first_part_text (data : JsValue) : JsValue :=
  GetOpt (GetOpt (GetOpt (GetOpt (GetOpt (field data "candidates") (Index 0))
                            (Name (lit "content")))
                    (Name (lit "parts")))
            (Index 0))
    (Name (lit "text")).

(** ** The tool catalog *)

(** A member of an object literal. *)
Definition member (k : string) (v : JsValue) : jsstring * JsValue := (lit k, v).

(** The schema of the [model] property, the same in the three tools. *)
Definition model_property : JsValue :=
  JObj [member "type" (JStr (lit "string"));
        member "description"
          (JStr (lit "Gemini model to use (default: " ++ DEFAULT_MODEL ++ lit ")"));
        member "default" (JStr DEFAULT_MODEL)].

(** [const tools: Tool[]], the list the list-tools handler returns. *)
Definition tools : list JsValue :=
  [ JObj
      [member "name" (JStr (lit "gemini_analyze"));
       member "description"
         (JStr (lit "Send a prompt to Google Gemini for analysis. Use for code review, explanations, "
                ++ lit "research questions, or any task benefiting from Gemini's 1M token context window."));
       member "inputSchema"
         (JObj
            [member "type" (JStr (lit "object"));
             member "properties"
               (JObj
                  [member "prompt"
                     (JObj [member "type" (JStr (lit "string"));
                            member "description"
                              (JStr (lit "The question or analysis request"))]);
                   member "context"
                     (JObj [member "type" (JStr (lit "string"));
                            member "description"
                              (JStr (lit "Optional additional context (e.g., file contents, code)"))]);
                   member "model" model_property]);
             member "required" (JArr [JStr (lit "prompt")])])];
    JObj
      [member "name" (JStr (lit "gemini_chat"));
       member "description"
         (JStr (lit "Multi-turn conversation with Gemini. Maintains conversation history for context-aware responses."));
       member "inputSchema"
         (JObj
            [member "type" (JStr (lit "object"));
             member "properties"
               (JObj
                  [member "messages"
                     (JObj
                        [member "type" (JStr (lit "array"));
                         member "description" (JStr (lit "Array of conversation messages"));
                         member "items"
                           (JObj
                              [member "type" (JStr (lit "object"));
                               member "properties"
                                 (JObj
                                    [member "role"
                                       (JObj [member "type" (JStr (lit "string"));
                                              member "enum"
                                                (JArr [JStr (lit "user"); JStr (lit "model")]);
                                              member "description"
                                                (JStr (lit "Role of the message sender"))]);
                                     member "content"
                                       (JObj [member "type" (JStr (lit "string"));
                                              member "description"
                                                (JStr (lit "Message content"))])]);
                               member "required"
                                 (JArr [JStr (lit "role"); JStr (lit "content")])])]);
                   member "model" model_property]);
             member "required" (JArr [JStr (lit "messages")])])];
    JObj
      [member "name" (JStr (lit "gemini_summarize"));
       member "description"
         (JStr (lit "Summarize large text or code using Gemini's 1M token context window. "
                ++ lit "Ideal for summarizing entire codebases, long documents, or extensive logs."));
       member "inputSchema"
         (JObj
            [member "type" (JStr (lit "object"));
             member "properties"
               (JObj
                  [member "content"
                     (JObj [member "type" (JStr (lit "string"));
                            member "description"
                              (JStr (lit "The text or code to summarize"))]);
                   member "focus"
                     (JObj [member "type" (JStr (lit "string"));
                            member "description"
                              (JStr (lit "Optional focus area (e.g., 'security issues', 'architecture', 'key functions')"))]);
                   member "model" model_property]);
             member "required" (JArr [JStr (lit "content")])])] ].

(** The names the catalog advertises. *)
Definition tool_names : list JsValue := map (fun t => field t "name") tools.

(** [inputSchema.required] of a tool. *)
Definition schema_required (t : JsValue) : list JsValue :=
  elements (field (field t "inputSchema") "required").

(** [inputSchema.properties.model.default] of a tool. *)
Definition schema_model_default (t : JsValue) : JsValue :=
  field (field (field (field t "inputSchema") "properties") "model") "default".

(** ** Further notions used in the statements *)

(** The temperature a tool passes to [callGemini]; none but the summarize
    tool passes one. *)
Definition tool_temperature (name : jsstring) : option number :=
  if str_eqb name (lit "gemini_summarize") then Some (Num (lit "0.5")) else None.

Definition API_KEY_MESSAGE : jsstring :=
  lit "GEMINI_API_KEY environment variable is required. "
  ++ lit "Get your API key from https://aistudio.google.com/apikey".

(** The result of a failed tool call with the given message. *)
Definition error_result (message : jsstring) : CallToolResult :=
  {| content := [ {| item_type := lit "text"; item_text := JStr (lit "Error: " ++ message) |} ];
     isError := Some true |}.

(** The result of a successful tool call with the given text. *)
Definition text_result (t : JsValue) : CallToolResult :=
  {| content := [ {| item_type := lit "text"; item_text := t |} ]; isError := None |}.

(** A platform whose upstream gives every request the same reply. *)
Definition world_of (key : option jsstring) (reply : Result Response) : World :=
  {| GEMINI_API_KEY := key; fetch := fun _ => reply; fault_text := sample_fault_text |}.

(** HTTP 500 with an error body. *)
Definition overloaded_answer : Response :=
  {| status := 500;
     body_text := inr (lit "{" ++ DQ ++ lit "error" ++ DQ ++ lit ":{" ++ DQ ++ lit "message"
                       ++ DQ ++ lit ":" ++ DQ ++ lit "overloaded" ++ DQ ++ lit "}}");
     body_json := inr (JObj [member "error" (JObj [member "message" (JStr (lit "overloaded"))])]) |}.

(** HTTP 200 with an error object in the body. *)
Definition quota_answer : Response :=
  {| status := 200;
     body_text := inr (lit "{" ++ DQ ++ lit "error" ++ DQ ++ lit ":{" ++ DQ ++ lit "message"
                       ++ DQ ++ lit ":" ++ DQ ++ lit "quota exceeded" ++ DQ ++ lit "}}");
     body_json := inr (JObj [member "error" (JObj [member "message" (JStr (lit "quota exceeded"))])]) |}.

(** The request the analyze tool sends for the prompt [X] with the test key. *)
Definition analyze_X_request : HttpRequest :=
  gemini_request (lit "test-key") DEFAULT_MODEL [user_message (JStr (lit "X"))]
    (Num (lit "0.7")) (Num (lit "8192")).

Definition analyze_X : JsValue := JObj [member "prompt" (JStr (lit "X"))].

(** * Properties *)

(** ** Strings *)

Lemma str_eqb_eq (a b : jsstring) : str_eqb a b = true <-> a = b.
Proof.
  revert b; induction a as [|x a IH]; intros [|y b]; simpl; split;
    try congruence; try reflexivity.
  - intros H. apply andb_true_iff in H as [Hx Hab].
    apply N.eqb_eq in Hx. apply IH in Hab. congruence.
  - intros H. injection H as -> ->. rewrite N.eqb_refl. simpl. now apply IH.
Qed.

Lemma str_eqb_refl (a : jsstring) : str_eqb a a = true.
Proof. now apply str_eqb_eq. Qed.

Lemma str_eqb_neq (a b : jsstring) : a <> b -> str_eqb a b = false.
Proof.
  intros H. destruct (str_eqb a b) eqn:E; [|reflexivity].
  apply str_eqb_eq in E. contradiction.
Qed.

Lemma trimStart_nil_iff (s : jsstring) : trimStart s = [] <-> blank s = true.
Proof.
  induction s as [|c s IH]; simpl.
  - tauto.
  - destruct (is_white_space c); simpl; [exact IH|]. split; discriminate.
Qed.

Lemma blank_app (a b : jsstring) : blank (a ++ b) = blank a && blank b.
Proof. apply forallb_app. Qed.

Lemma blank_rev (s : jsstring) : blank (rev s) = blank s.
Proof.
  induction s as [|c s IH]; simpl; [reflexivity|].
  rewrite blank_app, IH. simpl. rewrite andb_true_r. apply andb_comm.
Qed.

Lemma blank_trimStart (s : jsstring) : blank (trimStart s) = blank s.
Proof.
  induction s as [|c s IH]; simpl; [reflexivity|].
  destruct (is_white_space c) eqn:E; simpl; [exact IH|]. now rewrite E.
Qed.

(** [trim] leaves nothing exactly of the blank strings. *)
Lemma trim_nil_iff (s : jsstring) : trim s = [] <-> blank s = true.
Proof.
  unfold trim, trimEnd. split.
  - intros H. apply (f_equal (@rev N)) in H. rewrite rev_involutive in H. simpl in H.
    apply trimStart_nil_iff in H. rewrite blank_rev, blank_trimStart in H. exact H.
  - intros H.
    assert (E : trimStart (rev (trimStart s)) = []).
    { apply trimStart_nil_iff. now rewrite blank_rev, blank_trimStart. }
    now rewrite E.
Qed.

Lemma truthy_trim (s : jsstring) : truthy (JStr (trim s)) = negb (blank s).
Proof.
  destruct (blank s) eqn:B.
  - apply trim_nil_iff in B. now rewrite B.
  - destruct (trim s) eqn:T; [|reflexivity].
    apply trim_nil_iff in T. congruence.
Qed.

(** ** The monad *)

Lemma sent_bind {A B} (m : Eff A) (f : A -> Eff B) :
  sent (bind m f) =
  sent m ++ match outcome m with inr a => sent (f a) | inl _ => [] end.
Proof.
  destruct m as [reqs [e|a]]; simpl.
  - now rewrite app_nil_r.
  - now destruct (f a).
Qed.

Lemma bind_lift_inr {A B} (a : A) (f : A -> Eff B) : bind (lift (inr a)) f = f a.
Proof. unfold bind, lift. now destruct (f a). Qed.

Lemma bind_ret {A B} (a : A) (f : A -> Eff B) : bind (ret a) f = f a.
Proof. apply bind_lift_inr. Qed.

Lemma bind_lift_inl {A B} (e : Exn) (f : A -> Eff B) : bind (lift (inl e)) f = throw e.
Proof. reflexivity. Qed.

(** ** getApiKey and callGemini *)

Lemma getApiKey_present (w : World) (k : jsstring) :
  GEMINI_API_KEY w = Some k -> k <> [] -> getApiKey w = ret k.
Proof.
  intros Hk Hne. unfold getApiKey. rewrite Hk.
  destruct k; [congruence|reflexivity].
Qed.

Lemma getApiKey_absent (w : World) :
  GEMINI_API_KEY w = None \/ GEMINI_API_KEY w = Some [] ->
  getApiKey w =
  throw (JsError (lit "GEMINI_API_KEY environment variable is required. "
                  ++ lit "Get your API key from https://aistudio.google.com/apikey")).
Proof.
  intros [H|H]; unfold getApiKey; now rewrite H.
Qed.

Lemma truthy_not_nullish (v : JsValue) : truthy v = true -> nullish v = false.
Proof. destruct v; simpl; congruence. Qed.

(** With an API key and a model that is a string, [callGemini] sends exactly
    the request above and reads its answer. *)
Lemma callGemini_string_model (w : World) (k m : jsstring) (msgs : list GeminiMessage)
    (t mt : option number) :
  GEMINI_API_KEY w = Some k -> k <> [] ->
  let req := gemini_request k m msgs (or_default_number t (Num (lit "0.7")))
               (or_default_number mt (Num (lit "8192"))) in
  callGemini w msgs (JStr m) t mt = ([req], read_response (fetch w req)).
Proof.
  intros Hk Hne req. unfold callGemini.
  rewrite (getApiKey_present w k Hk Hne), bind_ret.
  cbn [or_default_value template ToString].
  rewrite bind_lift_inr.
  replace (GEMINI_API_BASE ++ lit "/" ++ m ++ lit ":generateContent" ++ [])
    with (GEMINI_API_BASE ++ lit "/" ++ m ++ lit ":generateContent")
    by now rewrite app_nil_r.
  fold (gemini_request k m msgs (or_default_number t (Num (lit "0.7")))
          (or_default_number mt (Num (lit "8192")))). fold req.
  unfold await_fetch, read_response.
  destruct (fetch w req) as [e|response]; [reflexivity|].
  cbn [bind]. destruct (ok response); cbn [negb].
  - destruct (body_json response) as [e|data]; [reflexivity|].
    rewrite bind_lift_inr.
    destruct (Get data (Name (lit "error"))) as [e|error] eqn:Eerr; [reflexivity|].
    rewrite bind_lift_inr.
    destruct (truthy error) eqn:Terr.
    + unfold Get. rewrite (truthy_not_nullish _ Terr). rewrite bind_lift_inr.
      unfold or_else.
      destruct (ToString _) as [e|shown]; reflexivity.
    + destruct (candidate_text data) as [e|text]; [reflexivity|].
      rewrite bind_lift_inr. destruct (truthy text); reflexivity.
  - destruct (body_text response) as [e|errorText]; reflexivity.
Qed.

(** Without an API key nothing is sent. *)
Lemma callGemini_no_key (w : World) (msgs : list GeminiMessage) (model : JsValue)
    (t mt : option number) :
  GEMINI_API_KEY w = None \/ GEMINI_API_KEY w = Some [] ->
  callGemini w msgs model t mt =
  throw (JsError (lit "GEMINI_API_KEY environment variable is required. "
                  ++ lit "Get your API key from https://aistudio.google.com/apikey")).
Proof.
  intros H. unfold callGemini. now rewrite (getApiKey_absent w H).
Qed.

(** ** Reading the arguments *)

Lemma Get_field (args : JsValue) (k : string) :
  nullish args = false -> Get args (Name (lit k)) = inr (field args k).
Proof. intros H. unfold Get, field. now rewrite H. Qed.

Lemma Get_nullish (args : JsValue) (k : Key) :
  nullish args = true -> Get args k = inl (EngineError (ReadOfNullish args k)).
Proof. intros H. unfold Get. now rewrite H. Qed.

Lemma or_else_optional_string (v : JsValue) :
  optional_string v = true -> or_else v (JStr DEFAULT_MODEL) = JStr (chosen_model v).
Proof. destruct v as [| | | |[|c s]| |]; simpl; intros H; try discriminate; reflexivity. Qed.

Lemma trimOpt_required (v : JsValue) (t : JsValue) :
  trimOpt v = inr t -> truthy t = negb (missing_or_blank v).
Proof.
  destruct v; simpl; intros H; try discriminate; injection H as <-; try reflexivity.
  apply truthy_trim.
Qed.

Lemma missing_or_blank_false (v : JsValue) :
  missing_or_blank v = false ->
  (exists s, v = JStr s /\ blank s = false) \/ trimOpt v = inl (EngineError (NotAFunction (lit "trim"))).
Proof.
  destruct v; simpl; intros H; try discriminate; try (right; reflexivity).
  left. eauto.
Qed.

(** ** The handlers, once validation passes *)

Lemma analyze_run (w : World) (args : JsValue) (p : jsstring) :
  nullish args = false ->
  field args "prompt" = JStr p -> blank p = false ->
  optional_string (field args "context") = true ->
  handleGeminiAnalyze w args =
  callGemini w [user_message (JStr (analyze_text p (field args "context")))]
    (or_else (field args "model") (JStr DEFAULT_MODEL)) None None.
Proof.
  intros Hargs Hp Hb Hc. unfold handleGeminiAnalyze.
  rewrite !(Get_field args) by exact Hargs. rewrite Hp.
  rewrite bind_lift_inr. cbn [trimOpt]. rewrite bind_lift_inr.
  rewrite truthy_trim, Hb. cbn [negb]. rewrite bind_lift_inr.
  destruct (field args "context") as [| | | |c| |] eqn:Ec; try discriminate;
    cbn [trimOpt analyze_text]; rewrite bind_lift_inr.
  - cbn [truthy]. rewrite !bind_ret, bind_lift_inr. reflexivity.
  - cbn [truthy]. rewrite !bind_ret, bind_lift_inr. reflexivity.
  - rewrite truthy_trim. destruct (blank c); cbn [negb].
    + rewrite !bind_ret, bind_lift_inr. reflexivity.
    + cbn [template ToString]. rewrite bind_lift_inr, !bind_ret, bind_lift_inr.
      rewrite app_nil_r. unfold LF. rewrite <- !app_assoc. reflexivity.
Qed.

Lemma summarize_run (w : World) (args : JsValue) (c : jsstring) :
  nullish args = false ->
  field args "content" = JStr c -> blank c = false ->
  optional_string (field args "focus") = true ->
  handleGeminiSummarize w args =
  callGemini w [user_message (JStr (summarize_text c (field args "focus")))]
    (or_else (field args "model") (JStr DEFAULT_MODEL)) (Some (Num (lit "0.5"))) None.
Proof.
  intros Hargs Hp Hb Hc. unfold handleGeminiSummarize.
  rewrite !(Get_field args) by exact Hargs. rewrite Hp.
  rewrite bind_lift_inr. cbn [trimOpt]. rewrite bind_lift_inr.
  rewrite truthy_trim, Hb. cbn [negb]. rewrite bind_lift_inr.
  destruct (field args "focus") as [| | | |f| |] eqn:Ec; try discriminate;
    cbn [trimOpt summarize_text]; rewrite bind_lift_inr.
  - cbn [truthy ToString]. rewrite !bind_ret, !bind_lift_inr. reflexivity.
  - cbn [truthy ToString]. rewrite !bind_ret, !bind_lift_inr. reflexivity.
  - rewrite truthy_trim. destruct (blank f); cbn [negb ToString].
    + rewrite !bind_ret, !bind_lift_inr. reflexivity.
    + cbn [template ToString]. rewrite !bind_lift_inr.
      rewrite app_nil_r. rewrite <- !app_assoc. reflexivity.
Qed.

Lemma mapM_turns (turns : list JsValue) :
  Forall (fun t => nullish t = false) turns ->
  mapM (fun msg =>
          r <- lift (Get msg (Name (lit "role"))) ;;
          c <- lift (Get msg (Name (lit "content"))) ;;
          ret {| role := r; parts := [ {| text := c |} ] |}) turns
  = ret (map turn_message turns).
Proof.
  induction 1 as [|t turns Ht _ IH]; [reflexivity|].
  cbn [mapM map]. rewrite IH.
  rewrite !(Get_field t) by exact Ht.
  rewrite !bind_lift_inr, !bind_ret. reflexivity.
Qed.

Lemma chat_run (w : World) (args : JsValue) (turns : list JsValue) :
  nullish args = false ->
  field args "messages" = JArr turns -> turns <> [] ->
  Forall (fun t => nullish t = false) turns ->
  handleGeminiChat w args =
  callGemini w (map turn_message turns)
    (or_else (field args "model") (JStr DEFAULT_MODEL)) None None.
Proof.
  intros Hargs Hm Hne Hall. unfold handleGeminiChat.
  rewrite !(Get_field args) by exact Hargs. rewrite Hm.
  rewrite bind_lift_inr.
  destruct turns as [|t turns]; [congruence|].
  cbn [truthy isArray negb orb array_length elements List.length].
  replace (N.of_nat (S (List.length turns)) =? 0) with false
    by (symmetry; apply N.eqb_neq; lia).
  rewrite (mapM_turns _ Hall), bind_ret, bind_lift_inr. reflexivity.
Qed.

(** ** The handlers, when validation fails *)

Lemma analyze_rejects (w : World) (args : JsValue) :
  nullish args = false ->
  missing_or_blank (field args "prompt") = true ->
  handleGeminiAnalyze w args = throw (JsError (lit "prompt is required and cannot be empty")).
Proof.
  intros Hargs Hv. unfold handleGeminiAnalyze.
  rewrite (Get_field args) by exact Hargs. rewrite bind_lift_inr.
  destruct (trimOpt (field args "prompt")) as [e|t] eqn:Et.
  - destruct (field args "prompt"); simpl in *; discriminate.
  - rewrite bind_lift_inr, (trimOpt_required _ _ Et), Hv. reflexivity.
Qed.

Lemma summarize_rejects (w : World) (args : JsValue) :
  nullish args = false ->
  missing_or_blank (field args "content") = true ->
  handleGeminiSummarize w args = throw (JsError (lit "content is required and cannot be empty")).
Proof.
  intros Hargs Hv. unfold handleGeminiSummarize.
  rewrite (Get_field args) by exact Hargs. rewrite bind_lift_inr.
  destruct (trimOpt (field args "content")) as [e|t] eqn:Et.
  - destruct (field args "content"); simpl in *; discriminate.
  - rewrite bind_lift_inr, (trimOpt_required _ _ Et), Hv. reflexivity.
Qed.

Lemma chat_rejects (w : World) (args : JsValue) :
  nullish args = false ->
  no_turns (field args "messages") = true ->
  handleGeminiChat w args =
  throw (JsError (lit "messages array is required and cannot be empty")).
Proof.
  intros Hargs Hv. unfold handleGeminiChat.
  rewrite (Get_field args) by exact Hargs. rewrite bind_lift_inr.
  unfold no_turns in Hv. now rewrite Hv.
Qed.

(** ** What the handlers send *)

Lemma callGemini_optional_model (w : World) (k : jsstring) (msgs : list GeminiMessage)
    (model : JsValue) (t : option number) :
  GEMINI_API_KEY w = Some k -> k <> [] -> optional_string model = true ->
  let req := gemini_request k (chosen_model model) msgs
               (or_default_number t (Num (lit "0.7"))) (Num (lit "8192")) in
  callGemini w msgs (or_else model (JStr DEFAULT_MODEL)) t None
  = ([req], read_response (fetch w req)).
Proof.
  intros Hk Hne Hm. rewrite (or_else_optional_string _ Hm).
  exact (callGemini_string_model w k (chosen_model model) msgs t None Hk Hne).
Qed.

(** Whatever [callGemini] sends for a string model goes to that model's URL. *)
Lemma callGemini_sent_url (w : World) (msgs : list GeminiMessage) (m : jsstring)
    (t mt : option number) (req : HttpRequest) :
  In req (sent (callGemini w msgs (JStr m) t mt)) ->
  url req = GEMINI_API_BASE ++ lit "/" ++ m ++ lit ":generateContent".
Proof.
  destruct (GEMINI_API_KEY w) as [[|c k]|] eqn:Hk.
  - rewrite callGemini_no_key by (right; exact Hk). intros [].
  - rewrite (callGemini_string_model w (c :: k) m msgs t mt Hk) by discriminate.
    intros [<-|[]]. reflexivity.
  - rewrite callGemini_no_key by (left; exact Hk). intros [].
Qed.

Lemma sent_bind_lift {A B} (r : Result A) (f : A -> Eff B) :
  sent (bind (lift r) f) = match r with inr a => sent (f a) | inl _ => [] end.
Proof. destruct r as [e|a]; [reflexivity|]. now rewrite bind_lift_inr. Qed.

Lemma mapM_lift_sent {A B} (f : A -> Eff B) (l : list A) :
  (forall x, sent (f x) = []) -> sent (mapM f l) = [].
Proof.
  intros Hf. induction l as [|x l IH]; [reflexivity|].
  cbn [mapM]. rewrite sent_bind, Hf. cbn [app].
  destruct (outcome (f x)); [reflexivity|].
  rewrite sent_bind, IH. cbn [app]. now destruct (outcome (mapM f l)).
Qed.

(** A handler sends nothing by itself: whatever goes out, [callGemini] sends
    it, for the model the handler chose. *)
Lemma analyze_sent (w : World) (args : JsValue) :
  sent (handleGeminiAnalyze w args) = [] \/
  exists msgs,
    sent (handleGeminiAnalyze w args) =
    sent (callGemini w msgs (or_else (field args "model") (JStr DEFAULT_MODEL)) None None).
Proof.
  unfold handleGeminiAnalyze.
  destruct (nullish args) eqn:Hargs.
  { left. now rewrite Get_nullish. }
  rewrite !(Get_field args) by exact Hargs. rewrite !bind_lift_inr.
  rewrite sent_bind_lift. destruct (trimOpt (field args "prompt")); [now left|].
  destruct (negb (truthy j)); [now left|].
  rewrite sent_bind_lift. destruct (trimOpt (field args "context")); [now left|].
  destruct (truthy j0).
  - destruct (template _) as [e|s]; [now left|].
    rewrite bind_lift_inr, !bind_ret. rewrite ?bind_ret, ?bind_lift_inr. right. eauto.
  - rewrite bind_ret. rewrite ?bind_ret, ?bind_lift_inr. right. eauto.
Qed.

Lemma summarize_sent (w : World) (args : JsValue) :
  sent (handleGeminiSummarize w args) = [] \/
  exists msgs,
    sent (handleGeminiSummarize w args) =
    sent (callGemini w msgs (or_else (field args "model") (JStr DEFAULT_MODEL))
            (Some (Num (lit "0.5"))) None).
Proof.
  unfold handleGeminiSummarize.
  destruct (nullish args) eqn:Hargs.
  { left. now rewrite Get_nullish. }
  rewrite !(Get_field args) by exact Hargs. rewrite !bind_lift_inr.
  rewrite sent_bind_lift. destruct (trimOpt (field args "content")); [now left|].
  destruct (negb (truthy j)); [now left|].
  rewrite sent_bind_lift. destruct (trimOpt (field args "focus")); [now left|].
  destruct (truthy j0).
  - destruct (template _) as [e|s]; [now left|].
    rewrite bind_lift_inr.
    destruct (ToString (field args "content")); [now left|].
    rewrite bind_lift_inr. rewrite ?bind_ret, ?bind_lift_inr. right. eauto.
  - rewrite bind_ret.
    destruct (ToString (field args "content")); [now left|].
    rewrite bind_lift_inr. rewrite ?bind_ret, ?bind_lift_inr. right. eauto.
Qed.

Lemma chat_sent (w : World) (args : JsValue) :
  sent (handleGeminiChat w args) = [] \/
  exists msgs,
    sent (handleGeminiChat w args) =
    sent (callGemini w msgs (or_else (field args "model") (JStr DEFAULT_MODEL)) None None).
Proof.
  unfold handleGeminiChat.
  destruct (nullish args) eqn:Hargs.
  { left. now rewrite Get_nullish. }
  rewrite !(Get_field args) by exact Hargs. rewrite !bind_lift_inr.
  destruct (_ || _); [now left|].
  rewrite sent_bind. rewrite mapM_lift_sent.
  - cbn [app]. destruct (outcome _); [now left|].
    rewrite bind_lift_inr. rewrite ?bind_ret, ?bind_lift_inr. right. eauto.
  - intros x. rewrite sent_bind_lift.
    destruct (Get x _); [reflexivity|].
    rewrite sent_bind_lift. now destruct (Get x _).
Qed.

(** ** Failures that send nothing *)

Lemma JsValue_array_ind (P : JsValue -> Prop) :
  P JUndefined -> P JNull -> (forall b, P (JBool b)) -> (forall n, P (JNum n)) ->
  (forall s, P (JStr s)) ->
  (forall l, Forall P l -> P (JArr l)) ->
  (forall props, P (JObj props)) ->
  forall v, P v.
Proof.
  intros Hu Hn Hb Hnum Hs Ha Ho.
  fix IH 1. intros [| |b|n|s|l|props];
    [exact Hu|exact Hn|apply Hb|apply Hnum|apply Hs| |apply Ho].
  apply Ha. induction l as [|x l IHl]; constructor; [apply IH|exact IHl].
Qed.

Lemma join_error (texts : list (Result jsstring)) (e : Exn) :
  Forall (fun r => forall e', r = inl e' -> e' = EngineError NoPrimitiveValue) texts ->
  join texts = inl e -> e = EngineError NoPrimitiveValue.
Proof.
  induction 1 as [|r rest Hr _ IH]; simpl; [discriminate|].
  destruct r as [e'|sx]; [intros H; injection H as <-; now apply Hr|].
  destruct rest as [|r' rest]; [discriminate|].
  destruct (join (r' :: rest)) as [e'|sr]; [|discriminate].
  intros H. injection H as <-. now apply IH.
Qed.

(** ToString fails in one way only. *)
Lemma ToString_error (v : JsValue) (e : Exn) :
  ToString v = inl e -> e = EngineError NoPrimitiveValue.
Proof.
  revert e. induction v as [| |b|[t]|s|l IH|props] using JsValue_array_ind;
    intros e; cbn [ToString]; try discriminate.
  - destruct b; discriminate.
  - apply join_error. induction IH as [|x l Hx _ IHl]; constructor; [|exact IHl].
    intros e'. destruct (nullish x); [discriminate|apply Hx].
  - destruct (lookup _ props); [|discriminate]. congruence.
Qed.

Lemma template_error (pieces : list JsValue) (e : Exn) :
  template pieces = inl e -> e = EngineError NoPrimitiveValue.
Proof.
  induction pieces as [|p rest IH]; simpl; [discriminate|].
  destruct (ToString p) as [e'|s] eqn:Ep.
  - intros H. injection H as <-. exact (ToString_error _ _ Ep).
  - destruct (template rest) as [e'|t]; [|discriminate].
    intros H. injection H as <-. now apply IH.
Qed.

(** When [callGemini] fails with an [Error] of the program's own before
    anything is sent, the error is the one of the missing API key. *)
Lemma callGemini_unsent_error (w : World) (msgs : list GeminiMessage) (model : JsValue)
    (t mt : option number) (m : jsstring) :
  callGemini w msgs model t mt = ([], inl (JsError m)) ->
  m = lit "GEMINI_API_KEY environment variable is required. "
      ++ lit "Get your API key from https://aistudio.google.com/apikey".
Proof.
  destruct (GEMINI_API_KEY w) as [[|c k]|] eqn:Hk.
  - rewrite callGemini_no_key by (right; exact Hk). intros H. now injection H as <-.
  - unfold callGemini. rewrite (getApiKey_present w (c :: k) Hk) by discriminate.
    rewrite bind_ret.
    destruct (template _) as [e|u] eqn:Et.
    + rewrite bind_lift_inl. intros H. injection H as ->.
      apply template_error in Et. discriminate.
    + rewrite bind_lift_inr. intros H. apply (f_equal sent) in H.
      rewrite sent_bind in H. discriminate.
  - rewrite callGemini_no_key by (left; exact Hk). intros H. now injection H as <-.
Qed.

Lemma mapM_turns_cases (turns : list JsValue) :
  let f := fun msg =>
             r <- lift (Get msg (Name (lit "role"))) ;;
             c <- lift (Get msg (Name (lit "content"))) ;;
             ret {| role := r; parts := [ {| text := c |} ] |} in
  (exists msgs, mapM f turns = ret msgs) \/ (exists fl, mapM f turns = throw (EngineError fl)).
Proof.
  intros f. induction turns as [|t turns IH]; [left; now exists []|].
  cbn [mapM]. unfold f at 1 3.
  destruct (nullish t) eqn:Ht.
  - right. rewrite !(Get_nullish t) by exact Ht. eexists. reflexivity.
  - rewrite !(Get_field t) by exact Ht. rewrite !bind_lift_inr, bind_ret.
    destruct IH as [[msgs ->]|[fl ->]].
    + left. rewrite bind_ret. eexists. reflexivity.
    + right. eexists. reflexivity.
Qed.

(** Past the check of the prompt, a context that is no string stops the
    analyze handler with a TypeError of the engine. *)
Lemma analyze_context_fault (w : World) (args : JsValue) (p : jsstring) :
  nullish args = false ->
  field args "prompt" = JStr p -> blank p = false ->
  optional_string (field args "context") = false ->
  handleGeminiAnalyze w args = throw (EngineError (NotAFunction (lit "trim"))).
Proof.
  intros Hargs Hp Hb Hc. unfold handleGeminiAnalyze.
  rewrite !(Get_field args) by exact Hargs. rewrite Hp.
  rewrite bind_lift_inr. cbn [trimOpt]. rewrite bind_lift_inr.
  rewrite truthy_trim, Hb. cbn [negb]. rewrite bind_lift_inr.
  destruct (field args "context"); try discriminate; reflexivity.
Qed.

Lemma summarize_focus_fault (w : World) (args : JsValue) (c : jsstring) :
  nullish args = false ->
  field args "content" = JStr c -> blank c = false ->
  optional_string (field args "focus") = false ->
  handleGeminiSummarize w args = throw (EngineError (NotAFunction (lit "trim"))).
Proof.
  intros Hargs Hp Hb Hc. unfold handleGeminiSummarize.
  rewrite !(Get_field args) by exact Hargs. rewrite Hp.
  rewrite bind_lift_inr. cbn [trimOpt]. rewrite bind_lift_inr.
  rewrite truthy_trim, Hb. cbn [negb]. rewrite bind_lift_inr.
  destruct (field args "focus"); try discriminate; reflexivity.
Qed.

Lemma required_field_fault (v : JsValue) :
  trimOpt v = inl (EngineError (NotAFunction (lit "trim"))) ->
  forall (k : JsValue -> Eff JsValue),
    bind (lift (trimOpt v)) k = throw (EngineError (NotAFunction (lit "trim"))).
Proof. intros -> k. reflexivity. Qed.

(** * The claims *)

(** C1, as the program has it.  The handlers do not compare the model with
    any set of names: a model that is a non-empty string, whichever it is, is
    put into the URL as given, and with an API key and valid arguments each
    tool sends its one request to that URL. *)
Theorem model_string_is_forwarded (w : World) (k m : jsstring) (args : JsValue) :
  GEMINI_API_KEY w = Some k -> k <> [] ->
  nullish args = false ->
  field args "model" = JStr m -> m <> [] ->
  let model_url := GEMINI_API_BASE ++ lit "/" ++ m ++ lit ":generateContent" in
  (forall p, field args "prompt" = JStr p -> blank p = false ->
     optional_string (field args "context") = true ->
     exists req, sent (handleGeminiAnalyze w args) = [req] /\ url req = model_url) /\
  (forall turns, field args "messages" = JArr turns -> turns <> [] ->
     Forall (fun t => nullish t = false) turns ->
     exists req, sent (handleGeminiChat w args) = [req] /\ url req = model_url) /\
  (forall c, field args "content" = JStr c -> blank c = false ->
     optional_string (field args "focus") = true ->
     exists req, sent (handleGeminiSummarize w args) = [req] /\ url req = model_url).
Proof.
  intros Hk Hne Hargs Hm Hmne model_url.
  assert (Hopt : optional_string (field args "model") = true) by now rewrite Hm.
  assert (Hch : chosen_model (field args "model") = m).
  { rewrite Hm. destruct m; [congruence|reflexivity]. }
  split; [|split].
  - intros p Hp Hb Hc. rewrite (analyze_run w args p Hargs Hp Hb Hc).
    rewrite (callGemini_optional_model w k _ _ None Hk Hne Hopt).
    eexists. split; [reflexivity|]. cbn [url gemini_request]. now rewrite Hch.
  - intros turns Ht Hne' Hall. rewrite (chat_run w args turns Hargs Ht Hne' Hall).
    rewrite (callGemini_optional_model w k _ _ None Hk Hne Hopt).
    eexists. split; [reflexivity|]. cbn [url gemini_request]. now rewrite Hch.
  - intros c Hc Hb Hf. rewrite (summarize_run w args c Hargs Hc Hb Hf).
    rewrite (callGemini_optional_model w k _ _ _ Hk Hne Hopt).
    eexists. split; [reflexivity|]. cbn [url gemini_request]. now rewrite Hch.
Qed.

Lemma model_string_is_forwarded_witness :
  exists req,
    sent (handleGeminiAnalyze answering_world analyze_unknown_model) = [req] /\
    url req = GEMINI_API_BASE ++ lit "/" ++ lit "not-a-real-model" ++ lit ":generateContent".
Proof.
  destruct (model_string_is_forwarded answering_world (lit "test-key")
              (lit "not-a-real-model") analyze_unknown_model) as [Ha _];
    try reflexivity; try discriminate.
  apply (Ha (lit "X")); reflexivity.
Defined.

(** C1, as stated, fails: the analyze tool called with the model
    "not-a-real-model", which is none of the available models, sends a
    request upstream and returns the text the upstream generated. *)
Lemma unknown_model_reaches_upstream :
  ~ In (lit "not-a-real-model") AVAILABLE_MODELS /\
  callTool answering_world (lit "gemini_analyze") analyze_unknown_model =
  ([gemini_request (lit "test-key") (lit "not-a-real-model")
      [user_message (JStr (lit "X"))] (Num (lit "0.7")) (Num (lit "8192"))],
   {| content := [ {| item_type := lit "text"; item_text := JStr (lit "hi") |} ];
      isError := None |}).
Proof.
  split.
  - intros [H|[H|[H|[]]]]; discriminate H.
  - reflexivity.
Qed.

(** C2, as the program has it.  Each handler validates one thing, its
    required field: it fails before sending anything, with the one fixed
    message of that field, exactly when the prompt (the content) is absent,
    null or blank, or when messages is not a non-empty array.  No other
    field of the request takes part. *)
Theorem validation_is_the_required_field (w : World) (args : JsValue) :
  nullish args = false ->
  (handleGeminiAnalyze w args =
     ([], inl (JsError (lit "prompt is required and cannot be empty")))
   <-> missing_or_blank (field args "prompt") = true)
  /\
  (handleGeminiChat w args =
     ([], inl (JsError (lit "messages array is required and cannot be empty")))
   <-> no_turns (field args "messages") = true)
  /\
  (handleGeminiSummarize w args =
     ([], inl (JsError (lit "content is required and cannot be empty")))
   <-> missing_or_blank (field args "content") = true).
Proof.
  intros Hargs. split; [|split]; (split; [intros H|]).
  - destruct (missing_or_blank (field args "prompt")) eqn:E; [reflexivity|exfalso].
    destruct (missing_or_blank_false _ E) as [[p [Hp Hb]]|Ht].
    + destruct (optional_string (field args "context")) eqn:Ec.
      * rewrite (analyze_run w args p Hargs Hp Hb Ec) in H.
        apply callGemini_unsent_error in H. discriminate H.
      * rewrite (analyze_context_fault w args p Hargs Hp Hb Ec) in H. discriminate H.
    + unfold handleGeminiAnalyze in H.
      rewrite (Get_field args) in H by exact Hargs.
      rewrite bind_lift_inr, (required_field_fault _ Ht) in H. discriminate H.
  - apply analyze_rejects. exact Hargs.
  - destruct (no_turns (field args "messages")) eqn:E; [reflexivity|exfalso].
    unfold handleGeminiChat in H.
    rewrite !(Get_field args) in H by exact Hargs.
    rewrite bind_lift_inr in H. unfold no_turns in E. rewrite E in H.
    destruct (mapM_turns_cases (elements (field args "messages"))) as [[msgs Em]|[fl Em]];
      cbv zeta in Em; rewrite Em in H.
    + rewrite bind_ret, bind_lift_inr in H.
      apply callGemini_unsent_error in H. discriminate H.
    + discriminate H.
  - apply chat_rejects. exact Hargs.
  - destruct (missing_or_blank (field args "content")) eqn:E; [reflexivity|exfalso].
    destruct (missing_or_blank_false _ E) as [[c [Hc Hb]]|Ht].
    + destruct (optional_string (field args "focus")) eqn:Ef.
      * rewrite (summarize_run w args c Hargs Hc Hb Ef) in H.
        apply callGemini_unsent_error in H. discriminate H.
      * rewrite (summarize_focus_fault w args c Hargs Hc Hb Ef) in H. discriminate H.
    + unfold handleGeminiSummarize in H.
      rewrite (Get_field args) in H by exact Hargs.
      rewrite bind_lift_inr, (required_field_fault _ Ht) in H. discriminate H.
  - apply summarize_rejects. exact Hargs.
Qed.

Lemma validation_is_the_required_field_witness :
  handleGeminiSummarize answering_world summarize_two_violations =
  ([], inl (JsError (lit "content is required and cannot be empty"))).
Proof.
  destruct (validation_is_the_required_field answering_world summarize_two_violations
              eq_refl) as [_ [_ [_ Hs]]].
  apply Hs. reflexivity.
Defined.

(** C2, as stated, fails: a chat request whose two turns both have an empty
    content violates two constraints of the specification, and meets no
    validation failure at all: it is sent upstream and answered. *)
Lemma two_violations_no_failure :
  spec_turns_violations 0 (elements (field chat_two_empty_turns "messages")) =
  [(0, lit "content"); (1, lit "content")]
  /\
  handleGeminiChat answering_world chat_two_empty_turns =
  ([gemini_request (lit "test-key") DEFAULT_MODEL
      [ {| role := JStr (lit "user"); parts := [ {| text := JStr [] |} ] |};
        {| role := JStr (lit "model"); parts := [ {| text := JStr [] |} ] |} ]
      (Num (lit "0.7")) (Num (lit "8192"))],
   inr (JStr (lit "hi"))).
Proof. split; reflexivity. Qed.

(** C3. Whatever error a tool handler raises, and for an unknown tool name
    as well, the tool-call handler returns a result whose text is "Error: "
    followed by the message of the error and whose isError flag is true;
    it returns a result with one text item in every case. *)
Theorem errors_become_error_results (w : World) (name : jsstring) (args : JsValue) :
  (forall reqs e,
     (name = lit "gemini_analyze" /\ handleGeminiAnalyze w args = (reqs, inl e)) \/
     (name = lit "gemini_chat" /\ handleGeminiChat w args = (reqs, inl e)) \/
     (name = lit "gemini_summarize" /\ handleGeminiSummarize w args = (reqs, inl e)) \/
     (name <> lit "gemini_analyze" /\ name <> lit "gemini_chat" /\
      name <> lit "gemini_summarize" /\
      reqs = [] /\ e = JsError (lit "Unknown tool: " ++ name)) ->
     callTool w name args =
     (reqs, {| content := [ {| item_type := lit "text";
                               item_text := JStr (lit "Error: " ++ message_of w e) |} ];
               isError := Some true |}))
  /\
  (exists t flag,
     snd (callTool w name args) =
     {| content := [ {| item_type := lit "text"; item_text := t |} ]; isError := flag |}).
Proof.
  split.
  - intros reqs e [[-> H]|[[-> H]|[[-> H]|[Ha [Hc [Hs [-> ->]]]]]]];
      unfold callTool, run_tool.
    + rewrite str_eqb_refl. now rewrite H.
    + change (str_eqb (lit "gemini_chat") (lit "gemini_analyze")) with false.
      rewrite str_eqb_refl. now rewrite H.
    + change (str_eqb (lit "gemini_summarize") (lit "gemini_analyze")) with false.
      change (str_eqb (lit "gemini_summarize") (lit "gemini_chat")) with false.
      rewrite str_eqb_refl. now rewrite H.
    + rewrite !str_eqb_neq by assumption. reflexivity.
  - unfold callTool. destruct (run_tool w name args) as [reqs [e|r]]; cbn [snd]; eauto.
Qed.

Lemma errors_become_error_results_witness :
  callTool answering_world (lit "gemini_analyze") (JObj []) =
  ([], {| content := [ {| item_type := lit "text";
                          item_text := JStr (lit "Error: "
                                             ++ lit "prompt is required and cannot be empty") |} ];
          isError := Some true |})
  /\
  callTool answering_world (lit "no_such_tool") (JObj []) =
  ([], {| content := [ {| item_type := lit "text";
                          item_text := JStr (lit "Error: " ++ lit "Unknown tool: "
                                             ++ lit "no_such_tool") |} ];
          isError := Some true |}).
Proof.
  split.
  - apply (proj1 (errors_become_error_results answering_world (lit "gemini_analyze")
                    (JObj [])) [] (JsError (lit "prompt is required and cannot be empty"))).
    left. split; reflexivity.
  - apply (proj1 (errors_become_error_results answering_world (lit "no_such_tool")
                    (JObj [])) [] (JsError (lit "Unknown tool: " ++ lit "no_such_tool"))).
    right. right. right. repeat split; discriminate.
Defined.

(** C4. For an analyze request with a valid prompt, the single user message
    carries the prompt alone when the context is absent or blank after
    trimming, and the prompt, the separator and the context when the context
    is not blank. *)
Theorem analyze_message_text (w : World) (k : jsstring) (args : JsValue) (p : jsstring) :
  GEMINI_API_KEY w = Some k -> k <> [] ->
  nullish args = false ->
  field args "prompt" = JStr p -> blank p = false ->
  optional_string (field args "model") = true ->
  (nullish (field args "context") = true \/
   (exists c, field args "context" = JStr c /\ blank c = true) ->
   exists req,
     sent (handleGeminiAnalyze w args) = [req] /\
     contents (body req) =
     [ {| role := JStr (lit "user"); parts := [ {| text := JStr p |} ] |} ])
  /\
  (forall c, field args "context" = JStr c -> blank c = false ->
   exists req,
     sent (handleGeminiAnalyze w args) = [req] /\
     contents (body req) =
     [ {| role := JStr (lit "user");
          parts := [ {| text := JStr (p ++ LF ++ LF ++ lit "--- Context ---" ++ LF ++ c) |} ] |} ]).
Proof.
  intros Hk Hne Hargs Hp Hb Hm. split.
  - intros Hc.
    assert (Ho : optional_string (field args "context") = true).
    { destruct Hc as [Hc|[c [-> _]]]; [|reflexivity].
      revert Hc; destruct (field args "context"); simpl; congruence. }
    rewrite (analyze_run w args p Hargs Hp Hb Ho).
    rewrite (callGemini_optional_model w k _ _ None Hk Hne Hm).
    eexists. split; [reflexivity|]. cbn [body contents gemini_request user_message].
    destruct Hc as [Hc|[c [-> Hc]]].
    + revert Hc; destruct (field args "context"); cbn [nullish analyze_text summarize_text];
        intros Hc; try discriminate; reflexivity.
    + cbn [analyze_text]. now rewrite Hc.
  - intros c Hc Hbc.
    assert (Ho : optional_string (field args "context") = true) by now rewrite Hc.
    rewrite (analyze_run w args p Hargs Hp Hb Ho).
    rewrite (callGemini_optional_model w k _ _ None Hk Hne Hm).
    eexists. split; [reflexivity|]. cbn [body contents gemini_request user_message].
    rewrite Hc. cbn [analyze_text]. now rewrite Hbc.
Qed.

Lemma analyze_message_text_witness :
  (exists req,
     sent (handleGeminiAnalyze answering_world analyze_blank_context) = [req] /\
     contents (body req) =
     [ {| role := JStr (lit "user"); parts := [ {| text := JStr (lit "X") |} ] |} ])
  /\
  (exists req,
     sent (handleGeminiAnalyze answering_world analyze_with_context) = [req] /\
     contents (body req) =
     [ {| role := JStr (lit "user");
          parts := [ {| text := JStr (lit "X" ++ LF ++ LF ++ lit "--- Context ---" ++ LF
                                     ++ lit "Y") |} ] |} ]).
Proof.
  split.
  - apply (analyze_message_text answering_world (lit "test-key") analyze_blank_context
             (lit "X")); try reflexivity; try discriminate.
    right. exists (lit " "). split; reflexivity.
  - apply (analyze_message_text answering_world (lit "test-key") analyze_with_context
             (lit "X")); try reflexivity; discriminate.
Defined.

(** C5. For a summarize request with valid content, the single user message
    is the fixed instruction prefix followed by the content, or the prefix
    naming the focus when a focus is present and not blank after trimming;
    the temperature of the request is 0.5. *)
Theorem summarize_message_and_temperature (w : World) (k : jsstring) (args : JsValue)
    (c : jsstring) :
  GEMINI_API_KEY w = Some k -> k <> [] ->
  nullish args = false ->
  field args "content" = JStr c -> blank c = false ->
  optional_string (field args "model") = true ->
  (nullish (field args "focus") = true \/
   (exists f, field args "focus" = JStr f /\ blank f = true) ->
   exists req,
     sent (handleGeminiSummarize w args) = [req] /\
     contents (body req) =
     [ {| role := JStr (lit "user");
          parts := [ {| text :=
            JStr (lit "Please provide a concise summary of the following content:"
                  ++ LF ++ LF ++ c) |} ] |} ] /\
     generationConfig (body req) =
     Some {| temperature := Some (Num (lit "0.5"));
             maxOutputTokens := Some (Num (lit "8192")) |})
  /\
  (forall f, field args "focus" = JStr f -> blank f = false ->
   exists req,
     sent (handleGeminiSummarize w args) = [req] /\
     contents (body req) =
     [ {| role := JStr (lit "user");
          parts := [ {| text :=
            JStr (lit "Please summarize the following content, focusing specifically on: "
                  ++ f ++ LF ++ LF ++ c) |} ] |} ] /\
     generationConfig (body req) =
     Some {| temperature := Some (Num (lit "0.5"));
             maxOutputTokens := Some (Num (lit "8192")) |}).
Proof.
  intros Hk Hne Hargs Hp Hb Hm. split.
  - intros Hc.
    assert (Ho : optional_string (field args "focus") = true).
    { destruct Hc as [Hc|[f [-> _]]]; [|reflexivity].
      revert Hc; destruct (field args "focus"); simpl; congruence. }
    rewrite (summarize_run w args c Hargs Hp Hb Ho).
    rewrite (callGemini_optional_model w k _ _ _ Hk Hne Hm).
    eexists. split; [reflexivity|]. split; [|reflexivity].
    cbn [body contents gemini_request user_message].
    destruct Hc as [Hc|[f [-> Hc]]].
    + revert Hc; destruct (field args "focus"); cbn [nullish analyze_text summarize_text];
        intros Hc; try discriminate; reflexivity.
    + cbn [summarize_text]. now rewrite Hc.
  - intros f Hf Hbf.
    assert (Ho : optional_string (field args "focus") = true) by now rewrite Hf.
    rewrite (summarize_run w args c Hargs Hp Hb Ho).
    rewrite (callGemini_optional_model w k _ _ _ Hk Hne Hm).
    eexists. split; [reflexivity|]. split; [|reflexivity].
    cbn [body contents gemini_request user_message].
    rewrite Hf. cbn [summarize_text]. now rewrite Hbf.
Qed.

Lemma summarize_message_and_temperature_witness :
  (exists req,
     sent (handleGeminiSummarize answering_world summarize_plain) = [req] /\
     contents (body req) =
     [ {| role := JStr (lit "user");
          parts := [ {| text :=
            JStr (lit "Please provide a concise summary of the following content:"
                  ++ LF ++ LF ++ lit "ABC") |} ] |} ] /\
     generationConfig (body req) =
     Some {| temperature := Some (Num (lit "0.5"));
             maxOutputTokens := Some (Num (lit "8192")) |})
  /\
  (exists req,
     sent (handleGeminiSummarize answering_world summarize_focused) = [req] /\
     contents (body req) =
     [ {| role := JStr (lit "user");
          parts := [ {| text :=
            JStr (lit "Please summarize the following content, focusing specifically on: "
                  ++ lit "bugs" ++ LF ++ LF ++ lit "ABC") |} ] |} ] /\
     generationConfig (body req) =
     Some {| temperature := Some (Num (lit "0.5"));
             maxOutputTokens := Some (Num (lit "8192")) |}).
Proof.
  split.
  - apply (summarize_message_and_temperature answering_world (lit "test-key")
             summarize_plain (lit "ABC")); try reflexivity; try discriminate.
    left. reflexivity.
  - apply (summarize_message_and_temperature answering_world (lit "test-key")
             summarize_focused (lit "ABC")); try reflexivity; discriminate.
Defined.

(** C6. For a chat request with a non-empty list of turns, the request
    carries one upstream message per turn, in the order of the turns, each
    with the role and the content of its turn. *)
Theorem chat_messages_mirror_turns (w : World) (k : jsstring) (args : JsValue)
    (turns : list JsValue) :
  GEMINI_API_KEY w = Some k -> k <> [] ->
  nullish args = false ->
  field args "messages" = JArr turns -> turns <> [] ->
  Forall (fun t => nullish t = false) turns ->
  optional_string (field args "model") = true ->
  exists req,
    sent (handleGeminiChat w args) = [req] /\
    contents (body req) =
    map (fun t => {| role := field t "role"; parts := [ {| text := field t "content" |} ] |})
        turns /\
    List.length (contents (body req)) = List.length turns /\
    forall i t, nth_error turns i = Some t ->
      nth_error (contents (body req)) i =
      Some {| role := field t "role"; parts := [ {| text := field t "content" |} ] |}.
Proof.
  intros Hk Hne Hargs Hmsgs Hturns Hall Hm.
  rewrite (chat_run w args turns Hargs Hmsgs Hturns Hall).
  rewrite (callGemini_optional_model w k _ _ None Hk Hne Hm).
  eexists. split; [reflexivity|].
  cbn [body contents gemini_request]. unfold turn_message.
  split; [reflexivity|]. split; [apply length_map|].
  intros i t Hi. now rewrite nth_error_map, Hi.
Qed.

Lemma chat_messages_mirror_turns_witness :
  exists req,
    sent (handleGeminiChat answering_world chat_hi) = [req] /\
    contents (body req) =
    map (fun t => {| role := field t "role"; parts := [ {| text := field t "content" |} ] |})
        [user_turn (lit "hi")] /\
    List.length (contents (body req)) = List.length [user_turn (lit "hi")] /\
    forall i t, nth_error [user_turn (lit "hi")] i = Some t ->
      nth_error (contents (body req)) i =
      Some {| role := field t "role"; parts := [ {| text := field t "content" |} ] |}.
Proof.
  apply (chat_messages_mirror_turns answering_world (lit "test-key") chat_hi
           [user_turn (lit "hi")]); try reflexivity; try discriminate.
  repeat constructor.
Defined.

(** C7. A tool invoked without its required field (prompt for analyze,
    messages for chat, content for summarize) fails with a message that
    names the field, and sends nothing upstream. *)
Theorem missing_required_field (w : World) (args : JsValue) :
  nullish args = false ->
  (field args "prompt" = JUndefined ->
   handleGeminiAnalyze w args =
   ([], inl (JsError (lit "prompt" ++ lit " is required and cannot be empty"))))
  /\
  (field args "messages" = JUndefined ->
   handleGeminiChat w args =
   ([], inl (JsError (lit "messages" ++ lit " array is required and cannot be empty"))))
  /\
  (field args "content" = JUndefined ->
   handleGeminiSummarize w args =
   ([], inl (JsError (lit "content" ++ lit " is required and cannot be empty")))).
Proof.
  intros Hargs. split; [|split]; intros H.
  - apply analyze_rejects; [exact Hargs|]. now rewrite H.
  - apply chat_rejects; [exact Hargs|]. now rewrite H.
  - apply summarize_rejects; [exact Hargs|]. now rewrite H.
Qed.

Lemma missing_required_field_witness :
  handleGeminiAnalyze answering_world (JObj []) =
  ([], inl (JsError (lit "prompt" ++ lit " is required and cannot be empty")))
  /\
  handleGeminiChat answering_world (JObj []) =
  ([], inl (JsError (lit "messages" ++ lit " array is required and cannot be empty")))
  /\
  handleGeminiSummarize answering_world (JObj []) =
  ([], inl (JsError (lit "content" ++ lit " is required and cannot be empty"))).
Proof.
  destruct (missing_required_field answering_world (JObj []) eq_refl) as [Ha [Hc Hs]].
  split; [apply Ha; reflexivity|].
  split; [apply Hc; reflexivity|apply Hs; reflexivity].
Defined.

(** C8, as the program has it.  For an answer with a 2xx status whose body
    parses to a value without an error member: when
    candidates[0].content.parts[0].text is missing or the empty string,
    [callGemini] fails with the message "No response content from Gemini";
    when it is a non-empty string, [callGemini] returns exactly that
    string. *)
Theorem answer_text_or_failure (w : World) (k m : jsstring) (msgs : list GeminiMessage)
    (t mt : option number) (response : Response) (data : JsValue) :
  GEMINI_API_KEY w = Some k -> k <> [] ->
  let req := gemini_request k m msgs (or_default_number t (Num (lit "0.7")))
               (or_default_number mt (Num (lit "8192"))) in
  fetch w req = inr response ->
  ok response = true ->
  body_json response = inr data ->
  nullish data = false ->
  truthy (field data "error") = false ->
  (first_part_text data = JUndefined \/ first_part_text data = JStr [] ->
   callGemini w msgs (JStr m) t mt =
   ([req], inl (JsError (lit "No response content from Gemini"))))
  /\
  (forall s, first_part_text data = JStr s -> s <> [] ->
   callGemini w msgs (JStr m) t mt = ([req], inr (JStr s))).
Proof.
  intros Hk Hne req Hf Hok Hj Hd He.
  assert (E : callGemini w msgs (JStr m) t mt =
              ([req], if truthy (first_part_text data) then inr (first_part_text data)
                      else inl (JsError (lit "No response content from Gemini")))).
  { rewrite (callGemini_string_model w k m msgs t mt Hk Hne). fold req.
    rewrite Hf. unfold read_response. rewrite Hok, Hj. cbn [negb].
    rewrite (Get_field data "error" Hd), He.
    unfold candidate_text. rewrite (Get_field data "candidates" Hd). reflexivity. }
  split.
  - intros [H|H]; rewrite E, H; reflexivity.
  - intros s H Hs. rewrite E, H. destruct s; [congruence|reflexivity].
Qed.

Lemma answer_text_or_failure_witness :
  callGemini silent_world [user_message (JStr (lit "X"))] (JStr DEFAULT_MODEL) None None =
  ([gemini_request (lit "test-key") DEFAULT_MODEL [user_message (JStr (lit "X"))]
      (Num (lit "0.7")) (Num (lit "8192"))],
   inl (JsError (lit "No response content from Gemini")))
  /\
  callGemini answering_world [user_message (JStr (lit "X"))] (JStr DEFAULT_MODEL) None None =
  ([gemini_request (lit "test-key") DEFAULT_MODEL [user_message (JStr (lit "X"))]
      (Num (lit "0.7")) (Num (lit "8192"))],
   inr (JStr (lit "hi"))).
Proof.
  split.
  - apply (answer_text_or_failure silent_world (lit "test-key") DEFAULT_MODEL
             [user_message (JStr (lit "X"))] None None empty_answer (JObj []));
      try reflexivity; try discriminate.
    left. reflexivity.
  - apply (answer_text_or_failure answering_world (lit "test-key") DEFAULT_MODEL
             [user_message (JStr (lit "X"))] None None (answer (lit "hi"))
             (JObj [(lit "candidates",
                     JArr [JObj [(lit "content",
                                  JObj [(lit "parts",
                                         JArr [JObj [(lit "text", JStr (lit "hi"))]])])]])]));
      try reflexivity; discriminate.
Defined.

(** C8, as stated, fails on the message: for the success answer [{}], which
    has no candidates, the failure of [callGemini] is not "No response
    content returned". *)
Lemma empty_answer_message :
  outcome (callGemini silent_world [user_message (JStr (lit "X"))] (JStr DEFAULT_MODEL)
             None None)
  = inl (JsError (lit "No response content from Gemini"))
  /\
  outcome (callGemini silent_world [user_message (JStr (lit "X"))] (JStr DEFAULT_MODEL)
             None None)
  <> inl (JsError (lit "No response content returned")).
Proof.
  split; [reflexivity|]. intros H. discriminate H.
Qed.

(** C9. An analyze request whose prompt is made of white space only, and a
    summarize request whose content is made of white space only, are
    rejected exactly as the request without the field is. *)
Theorem blank_required_field (w : World) (args : JsValue) (s : jsstring) :
  nullish args = false -> blank s = true ->
  (field args "prompt" = JStr s ->
   handleGeminiAnalyze w args =
   ([], inl (JsError (lit "prompt is required and cannot be empty"))) /\
   forall args', nullish args' = false -> field args' "prompt" = JUndefined ->
     handleGeminiAnalyze w args = handleGeminiAnalyze w args')
  /\
  (field args "content" = JStr s ->
   handleGeminiSummarize w args =
   ([], inl (JsError (lit "content is required and cannot be empty"))) /\
   forall args', nullish args' = false -> field args' "content" = JUndefined ->
     handleGeminiSummarize w args = handleGeminiSummarize w args').
Proof.
  intros Hargs Hb. split; intros H.
  - assert (E : handleGeminiAnalyze w args =
                throw (JsError (lit "prompt is required and cannot be empty"))).
    { apply analyze_rejects; [exact Hargs|]. now rewrite H. }
    split; [exact E|]. intros args' Hargs' H'. rewrite E. symmetry.
    apply analyze_rejects; [exact Hargs'|]. now rewrite H'.
  - assert (E : handleGeminiSummarize w args =
                throw (JsError (lit "content is required and cannot be empty"))).
    { apply summarize_rejects; [exact Hargs|]. now rewrite H. }
    split; [exact E|]. intros args' Hargs' H'. rewrite E. symmetry.
    apply summarize_rejects; [exact Hargs'|]. now rewrite H'.
Qed.

Lemma blank_required_field_witness :
  handleGeminiAnalyze answering_world (JObj [(lit "prompt", JStr (lit "   "))]) =
  handleGeminiAnalyze answering_world (JObj [])
  /\
  handleGeminiSummarize answering_world (JObj [(lit "content", JStr (lit "   "))]) =
  ([], inl (JsError (lit "content is required and cannot be empty"))).
Proof.
  split.
  - apply (blank_required_field answering_world
             (JObj [(lit "prompt", JStr (lit "   "))]) (lit "   ") eq_refl eq_refl);
      reflexivity.
  - apply (blank_required_field answering_world
             (JObj [(lit "content", JStr (lit "   "))]) (lit "   ") eq_refl eq_refl);
      reflexivity.
Defined.

(** C10. When the model argument is the empty string, every request a tool
    sends goes to the default model, as when the model is absent; with an
    API key and valid arguments the request is sent. *)
Theorem empty_model_selects_default (w : World) (args : JsValue) :
  field args "model" = JStr [] ->
  let default_url := GEMINI_API_BASE ++ lit "/" ++ DEFAULT_MODEL ++ lit ":generateContent" in
  (forall req, In req (sent (handleGeminiAnalyze w args)) -> url req = default_url) /\
  (forall req, In req (sent (handleGeminiChat w args)) -> url req = default_url) /\
  (forall req, In req (sent (handleGeminiSummarize w args)) -> url req = default_url) /\
  (forall k, GEMINI_API_KEY w = Some k -> k <> [] ->
     (forall p, field args "prompt" = JStr p -> blank p = false ->
        optional_string (field args "context") = true ->
        exists req, sent (handleGeminiAnalyze w args) = [req] /\ url req = default_url) /\
     (forall turns, field args "messages" = JArr turns -> turns <> [] ->
        Forall (fun t => nullish t = false) turns ->
        exists req, sent (handleGeminiChat w args) = [req] /\ url req = default_url) /\
     (forall c, field args "content" = JStr c -> blank c = false ->
        optional_string (field args "focus") = true ->
        exists req, sent (handleGeminiSummarize w args) = [req] /\ url req = default_url)).
Proof.
  intros Hm default_url.
  assert (Hor : or_else (field args "model") (JStr DEFAULT_MODEL) = JStr DEFAULT_MODEL)
    by now rewrite Hm.
  assert (Hargs : nullish args = false).
  { destruct args; try reflexivity; discriminate Hm. }
  assert (Hopt : optional_string (field args "model") = true) by now rewrite Hm.
  split; [|split; [|split]].
  - intros req Hin. destruct (analyze_sent w args) as [E|[msgs E]]; rewrite E in Hin.
    + destruct Hin.
    + rewrite Hor in Hin. exact (callGemini_sent_url _ _ _ _ _ _ Hin).
  - intros req Hin. destruct (chat_sent w args) as [E|[msgs E]]; rewrite E in Hin.
    + destruct Hin.
    + rewrite Hor in Hin. exact (callGemini_sent_url _ _ _ _ _ _ Hin).
  - intros req Hin. destruct (summarize_sent w args) as [E|[msgs E]]; rewrite E in Hin.
    + destruct Hin.
    + rewrite Hor in Hin. exact (callGemini_sent_url _ _ _ _ _ _ Hin).
  - intros k Hk Hne. split; [|split].
    + intros p Hp Hb Hc. rewrite (analyze_run w args p Hargs Hp Hb Hc).
      rewrite (callGemini_optional_model w k _ _ None Hk Hne Hopt).
      eexists. split; [reflexivity|]. now rewrite Hm.
    + intros turns Ht Hne' Hall. rewrite (chat_run w args turns Hargs Ht Hne' Hall).
      rewrite (callGemini_optional_model w k _ _ None Hk Hne Hopt).
      eexists. split; [reflexivity|]. now rewrite Hm.
    + intros c Hc Hb Hf. rewrite (summarize_run w args c Hargs Hc Hb Hf).
      rewrite (callGemini_optional_model w k _ _ _ Hk Hne Hopt).
      eexists. split; [reflexivity|]. now rewrite Hm.
Qed.

Lemma empty_model_selects_default_witness :
  exists req,
    sent (handleGeminiAnalyze answering_world analyze_empty_model) = [req] /\
    url req = GEMINI_API_BASE ++ lit "/" ++ DEFAULT_MODEL ++ lit ":generateContent".
Proof.
  destruct (empty_model_selects_default answering_world analyze_empty_model eq_refl)
    as [_ [_ [_ H]]].
  destruct (H (lit "test-key") eq_refl) as [Ha _]; [discriminate|].
  apply (Ha (lit "X")); reflexivity.
Defined.

(** * Further properties of the code *)

(** ** The cases of callGemini and of the handlers *)

(** With an API key and a model that converts to the text [ms], [callGemini]
    sends the one request for [ms] and reads its answer. *)
Lemma callGemini_general (w : World) (k ms : jsstring) (msgs : list GeminiMessage)
    (model : JsValue) (t mt : option number) :
  GEMINI_API_KEY w = Some k -> k <> [] ->
  ToString (or_default_value model (JStr DEFAULT_MODEL)) = inr ms ->
  let req := gemini_request k ms msgs (or_default_number t (Num (lit "0.7")))
               (or_default_number mt (Num (lit "8192"))) in
  callGemini w msgs model t mt = ([req], read_response (fetch w req)).
Proof.
  intros Hk Hne Hs req. subst req.
  pose proof (callGemini_string_model w k ms msgs t mt Hk Hne) as E.
  cbv zeta in E. rewrite <- E.
  unfold callGemini. cbn [template]. rewrite Hs. reflexivity.
Qed.

Lemma callGemini_bad_model (w : World) (k : jsstring) (msgs : list GeminiMessage)
    (model : JsValue) (t mt : option number) (e : Exn) :
  GEMINI_API_KEY w = Some k -> k <> [] ->
  ToString (or_default_value model (JStr DEFAULT_MODEL)) = inl e ->
  callGemini w msgs model t mt = throw e.
Proof.
  intros Hk Hne Hs. unfold callGemini.
  rewrite (getApiKey_present w k Hk Hne), bind_ret.
  cbn [template ToString]. rewrite Hs. reflexivity.
Qed.

(** [callGemini] stops before sending, or sends one request and reads its
    answer. *)
Lemma callGemini_cases (w : World) (msgs : list GeminiMessage) (model : JsValue)
    (t mt : option number) :
  ((GEMINI_API_KEY w = None \/ GEMINI_API_KEY w = Some []) /\
   callGemini w msgs model t mt = throw (JsError API_KEY_MESSAGE))
  \/ callGemini w msgs model t mt = throw (EngineError NoPrimitiveValue)
  \/ exists k ms,
       GEMINI_API_KEY w = Some k /\ k <> [] /\
       ToString (or_default_value model (JStr DEFAULT_MODEL)) = inr ms /\
       callGemini w msgs model t mt =
       ([gemini_request k ms msgs (or_default_number t (Num (lit "0.7")))
           (or_default_number mt (Num (lit "8192")))],
        read_response
          (fetch w (gemini_request k ms msgs (or_default_number t (Num (lit "0.7")))
                      (or_default_number mt (Num (lit "8192")))))).
Proof.
  destruct (GEMINI_API_KEY w) as [[|c k]|] eqn:Hk.
  - left. split; [now right|]. apply callGemini_no_key. now right.
  - right.
    destruct (ToString (or_default_value model (JStr DEFAULT_MODEL))) as [e|ms] eqn:Hs.
    + left. rewrite (callGemini_bad_model w (c :: k) msgs model t mt e Hk) by
        (discriminate || exact Hs).
      now rewrite (ToString_error _ _ Hs).
    + right. exists (c :: k), ms. repeat split; try discriminate; try assumption.
      apply (callGemini_general w (c :: k) ms msgs model t mt Hk); [discriminate|exact Hs].
  - left. split; [now left|]. apply callGemini_no_key. now left.
Qed.

(** Each handler stops on its own check, stops on a TypeError of the engine,
    or hands over to [callGemini]. *)
Lemma analyze_cases (w : World) (args : JsValue) :
  handleGeminiAnalyze w args = throw (JsError (lit "prompt is required and cannot be empty"))
  \/ (exists f, handleGeminiAnalyze w args = throw (EngineError f))
  \/ exists msgs,
       handleGeminiAnalyze w args =
       callGemini w msgs (or_else (field args "model") (JStr DEFAULT_MODEL)) None None.
Proof.
  destruct (nullish args) eqn:Hargs.
  { right; left. unfold handleGeminiAnalyze. rewrite Get_nullish by exact Hargs.
    eexists. reflexivity. }
  destruct (missing_or_blank (field args "prompt")) eqn:E.
  { left. now apply analyze_rejects. }
  right. destruct (missing_or_blank_false _ E) as [[p [Hp Hb]]|Ht].
  - destruct (optional_string (field args "context")) eqn:Ec.
    + right. eexists. exact (analyze_run w args p Hargs Hp Hb Ec).
    + left. eexists. exact (analyze_context_fault w args p Hargs Hp Hb Ec).
  - left. unfold handleGeminiAnalyze. rewrite (Get_field args) by exact Hargs.
    rewrite bind_lift_inr, (required_field_fault _ Ht). eexists. reflexivity.
Qed.

Lemma summarize_cases (w : World) (args : JsValue) :
  handleGeminiSummarize w args =
    throw (JsError (lit "content is required and cannot be empty"))
  \/ (exists f, handleGeminiSummarize w args = throw (EngineError f))
  \/ exists msgs,
       handleGeminiSummarize w args =
       callGemini w msgs (or_else (field args "model") (JStr DEFAULT_MODEL))
         (Some (Num (lit "0.5"))) None.
Proof.
  destruct (nullish args) eqn:Hargs.
  { right; left. unfold handleGeminiSummarize. rewrite Get_nullish by exact Hargs.
    eexists. reflexivity. }
  destruct (missing_or_blank (field args "content")) eqn:E.
  { left. now apply summarize_rejects. }
  right. destruct (missing_or_blank_false _ E) as [[c [Hc Hb]]|Ht].
  - destruct (optional_string (field args "focus")) eqn:Ef.
    + right. eexists. exact (summarize_run w args c Hargs Hc Hb Ef).
    + left. eexists. exact (summarize_focus_fault w args c Hargs Hc Hb Ef).
  - left. unfold handleGeminiSummarize. rewrite (Get_field args) by exact Hargs.
    rewrite bind_lift_inr, (required_field_fault _ Ht). eexists. reflexivity.
Qed.

Lemma chat_cases (w : World) (args : JsValue) :
  handleGeminiChat w args =
    throw (JsError (lit "messages array is required and cannot be empty"))
  \/ (exists f, handleGeminiChat w args = throw (EngineError f))
  \/ exists msgs,
       handleGeminiChat w args =
       callGemini w msgs (or_else (field args "model") (JStr DEFAULT_MODEL)) None None.
Proof.
  destruct (nullish args) eqn:Hargs.
  { right; left. unfold handleGeminiChat. rewrite Get_nullish by exact Hargs.
    eexists. reflexivity. }
  destruct (no_turns (field args "messages")) eqn:E.
  { left. now apply chat_rejects. }
  right. unfold handleGeminiChat.
  rewrite !(Get_field args) by exact Hargs. rewrite bind_lift_inr.
  unfold no_turns in E. rewrite E.
  destruct (mapM_turns_cases (elements (field args "messages"))) as [[msgs Em]|[fl Em]];
    cbv zeta in Em; rewrite Em.
  - right. rewrite bind_ret, bind_lift_inr. eexists. reflexivity.
  - left. eexists. reflexivity.
Qed.

(** The three tool names are the three cases of the [switch]. *)
Lemma run_tool_known (w : World) (args : JsValue) :
  run_tool w (lit "gemini_analyze") args = handleGeminiAnalyze w args /\
  run_tool w (lit "gemini_chat") args = handleGeminiChat w args /\
  run_tool w (lit "gemini_summarize") args = handleGeminiSummarize w args.
Proof. repeat split. Qed.

Lemma run_tool_unknown (w : World) (name : jsstring) (args : JsValue) :
  name <> lit "gemini_analyze" -> name <> lit "gemini_chat" ->
  name <> lit "gemini_summarize" ->
  run_tool w name args = throw (JsError (lit "Unknown tool: " ++ name)).
Proof.
  intros Ha Hc Hs. unfold run_tool. now rewrite !str_eqb_neq by assumption.
Qed.

(** A tool call stops before sending, or hands over to [callGemini] with the
    model of the arguments, or the default one, and the temperature of the
    tool. *)
Lemma run_tool_cases (w : World) (name : jsstring) (args : JsValue) :
  (exists e, run_tool w name args = throw e)
  \/ exists msgs,
       run_tool w name args =
       callGemini w msgs (or_else (field args "model") (JStr DEFAULT_MODEL))
         (tool_temperature name) None.
Proof.
  unfold run_tool, tool_temperature.
  destruct (str_eqb name (lit "gemini_analyze")) eqn:Ea.
  { apply str_eqb_eq in Ea. subst name.
    change (str_eqb (lit "gemini_analyze") (lit "gemini_summarize")) with false.
    destruct (analyze_cases w args) as [H|[[f H]|[msgs H]]]; rewrite H; eauto. }
  destruct (str_eqb name (lit "gemini_chat")) eqn:Ec.
  { apply str_eqb_eq in Ec. subst name.
    change (str_eqb (lit "gemini_chat") (lit "gemini_summarize")) with false.
    destruct (chat_cases w args) as [H|[[f H]|[msgs H]]]; rewrite H; eauto. }
  destruct (str_eqb name (lit "gemini_summarize")) eqn:Es.
  { destruct (summarize_cases w args) as [H|[[f H]|[msgs H]]]; rewrite H; eauto. }
  left. eauto.
Qed.

Lemma callTool_sent (w : World) (name : jsstring) (args : JsValue) :
  fst (callTool w name args) = sent (run_tool w name args).
Proof. unfold callTool. now destruct (run_tool w name args) as [reqs [e|r]]. Qed.

Lemma callTool_result (w : World) (name : jsstring) (args : JsValue) :
  snd (callTool w name args) =
  match outcome (run_tool w name args) with
  | inr r => text_result r
  | inl e => error_result (message_of w e)
  end.
Proof. unfold callTool. now destruct (run_tool w name args) as [reqs [e|r]]. Qed.

(** When a tool call has sent the request [req], its outcome is what
    [callGemini] reads from the answer to [req]. *)
Lemma run_tool_sent_one (w : World) (name : jsstring) (args : JsValue) (req : HttpRequest) :
  In req (sent (run_tool w name args)) ->
  run_tool w name args = ([req], read_response (fetch w req)).
Proof.
  destruct (run_tool_cases w name args) as [[e ->]|[msgs ->]]; [intros []|].
  destruct (callGemini_cases w msgs (or_else (field args "model") (JStr DEFAULT_MODEL))
              (tool_temperature name) None) as [[_ ->]|[->|[k [ms [_ [_ [_ ->]]]]]]].
  - intros [].
  - intros [].
  - intros [<-|[]]. reflexivity.
Qed.

Lemma read_response_truthy (r : Result Response) (v : JsValue) :
  read_response r = inr v -> truthy v = true.
Proof.
  unfold read_response. destruct r as [e|response]; [discriminate|].
  destruct (negb (ok response)).
  { destruct (body_text response); discriminate. }
  destruct (body_json response) as [e|data]; [discriminate|].
  destruct (Get data _) as [e|error]; [discriminate|].
  destruct (truthy error).
  { destruct (ToString _); discriminate. }
  destruct (candidate_text data) as [e|text]; [discriminate|].
  destruct (truthy text) eqn:T; [|discriminate].
  intros H. injection H as <-. exact T.
Qed.

Lemma or_else_not_undefined (v : JsValue) :
  or_default_value (or_else v (JStr DEFAULT_MODEL)) (JStr DEFAULT_MODEL)
  = or_else v (JStr DEFAULT_MODEL).
Proof.
  unfold or_else. destruct (truthy v) eqn:T; [|reflexivity].
  destruct v; try reflexivity. discriminate T.
Qed.

Lemma callTool_pair (w : World) (name : jsstring) (args : JsValue)
    (reqs : list HttpRequest) (r : Result JsValue) :
  run_tool w name args = (reqs, r) ->
  callTool w name args =
  (reqs, match r with inr v => text_result v | inl e => error_result (message_of w e) end).
Proof. intros H. unfold callTool. rewrite H. now destruct r. Qed.

(** When a tool call has sent [req], its result is made from what
    [callGemini] reads from the answer to [req]. *)
Lemma callTool_sent_one (w : World) (name : jsstring) (args : JsValue) (req : HttpRequest) :
  In req (fst (callTool w name args)) ->
  callTool w name args =
  ([req], match read_response (fetch w req) with
          | inr v => text_result v
          | inl e => error_result (message_of w e)
          end).
Proof.
  rewrite callTool_sent. intros H.
  exact (callTool_pair _ _ _ _ _ (run_tool_sent_one w name args req H)).
Qed.

(** ** The extras *)

(** X1. Without an API key (the variable unset or empty) no tool call sends
    a request and every tool call ends in an error result; for arguments
    that pass the handler's own checks the error is the one of [getApiKey]. *)
Theorem no_api_key_no_request (w : World) (name : jsstring) (args : JsValue) :
  GEMINI_API_KEY w = None \/ GEMINI_API_KEY w = Some [] ->
  fst (callTool w name args) = [] /\
  isError (snd (callTool w name args)) = Some true /\
  (nullish args = false ->
   (forall p, field args "prompt" = JStr p -> blank p = false ->
      optional_string (field args "context") = true ->
      callTool w (lit "gemini_analyze") args = ([], error_result API_KEY_MESSAGE)) /\
   (forall turns, field args "messages" = JArr turns -> turns <> [] ->
      Forall (fun t => nullish t = false) turns ->
      callTool w (lit "gemini_chat") args = ([], error_result API_KEY_MESSAGE)) /\
   (forall c, field args "content" = JStr c -> blank c = false ->
      optional_string (field args "focus") = true ->
      callTool w (lit "gemini_summarize") args = ([], error_result API_KEY_MESSAGE))).
Proof.
  intros Hk.
  assert (Hrun : exists e, run_tool w name args = throw e).
  { destruct (run_tool_cases w name args) as [H|[msgs H]]; [exact H|].
    rewrite H, (callGemini_no_key w _ _ _ _ Hk). eauto. }
  destruct Hrun as [e He].
  rewrite (callTool_pair _ _ _ _ _ He). cbn [fst snd].
  split; [reflexivity|]. split; [reflexivity|].
  intros Hargs. split; [|split].
  - intros p Hp Hb Hc. apply callTool_pair with (r := inl (JsError API_KEY_MESSAGE)).
    destruct (run_tool_known w args) as [-> _].
    rewrite (analyze_run w args p Hargs Hp Hb Hc). exact (callGemini_no_key w _ _ _ _ Hk).
  - intros turns Ht Hne Hall. apply callTool_pair with (r := inl (JsError API_KEY_MESSAGE)).
    destruct (run_tool_known w args) as [_ [-> _]].
    rewrite (chat_run w args turns Hargs Ht Hne Hall). exact (callGemini_no_key w _ _ _ _ Hk).
  - intros c Hc Hb Hf. apply callTool_pair with (r := inl (JsError API_KEY_MESSAGE)).
    destruct (run_tool_known w args) as [_ [_ ->]].
    rewrite (summarize_run w args c Hargs Hc Hb Hf). exact (callGemini_no_key w _ _ _ _ Hk).
Qed.

Lemma no_api_key_no_request_witness :
  callTool (world_of None (inr (answer (lit "hi")))) (lit "gemini_analyze") analyze_X
  = ([], error_result API_KEY_MESSAGE).
Proof.
  destruct (no_api_key_no_request (world_of None (inr (answer (lit "hi"))))
              (lit "gemini_analyze") analyze_X) as [_ [_ H]]; [left; reflexivity|].
  destruct (H eq_refl) as [Ha _].
  apply (Ha (lit "X")); reflexivity.
Defined.

(** X2. A tool call sends at most one request, whatever the name, the
    arguments and the platform. *)
Theorem at_most_one_request (w : World) (name : jsstring) (args : JsValue) :
  (List.length (fst (callTool w name args)) <= 1)%nat.
Proof.
  rewrite callTool_sent.
  destruct (run_tool_cases w name args) as [[e ->]|[msgs ->]]; [cbn; lia|].
  destruct (callGemini_cases w msgs (or_else (field args "model") (JStr DEFAULT_MODEL))
              (tool_temperature name) None) as [[_ ->]|[->|[k [ms [_ [_ [_ ->]]]]]]];
    cbn; lia.
Qed.

(** X3. A tool call that succeeds (no isError flag) has sent exactly one
    request, and the text it returns is truthy: never the empty string. *)
Theorem success_needs_one_request (w : World) (name : jsstring) (args : JsValue) :
  isError (snd (callTool w name args)) = None ->
  exists req v,
    callTool w name args = ([req], text_result v) /\
    read_response (fetch w req) = inr v /\ truthy v = true.
Proof.
  intros Hok.
  destruct (run_tool_cases w name args) as [[e He]|[msgs Hm]].
  { rewrite (callTool_pair _ _ _ _ _ He) in Hok. discriminate Hok. }
  destruct (callGemini_cases w msgs (or_else (field args "model") (JStr DEFAULT_MODEL))
              (tool_temperature name) None) as [[_ Hc]|[Hc|[k [ms [_ [_ [_ Hc]]]]]]];
    rewrite Hc in Hm.
  - rewrite (callTool_pair _ _ _ _ _ Hm) in Hok. discriminate Hok.
  - rewrite (callTool_pair _ _ _ _ _ Hm) in Hok. discriminate Hok.
  - rewrite (callTool_pair _ _ _ _ _ Hm) in Hok |- *.
    destruct (read_response _) as [e|v] eqn:Er; [discriminate Hok|].
    eexists _, v. split; [reflexivity|]. split; [exact Er|].
    exact (read_response_truthy _ _ Er).
Qed.

Lemma success_needs_one_request_witness :
  exists req v,
    callTool answering_world (lit "gemini_analyze") analyze_X = ([req], text_result v) /\
    read_response (fetch answering_world req) = inr v /\ truthy v = true.
Proof.
  apply (success_needs_one_request answering_world (lit "gemini_analyze") analyze_X).
  reflexivity.
Defined.

(** X4. Every request a tool call sends is a POST to
    {base}/{model}:generateContent, the model being the text of the model
    argument or of the default model; its headers are the JSON content type
    and the configured, non-empty API key; it asks for at most 8192 output
    tokens at temperature 0.5 for the summarize tool and 0.7 for the others. *)
Theorem request_shape (w : World) (name : jsstring) (args : JsValue) (req : HttpRequest) :
  In req (fst (callTool w name args)) ->
  exists k ms,
    GEMINI_API_KEY w = Some k /\ k <> [] /\
    ToString (or_else (field args "model") (JStr DEFAULT_MODEL)) = inr ms /\
    url req = GEMINI_API_BASE ++ lit "/" ++ ms ++ lit ":generateContent" /\
    method req = lit "POST" /\
    headers req = [(lit "Content-Type", lit "application/json"); (lit "x-goog-api-key", k)] /\
    generationConfig (body req) =
    Some {| temperature :=
              Some (if str_eqb name (lit "gemini_summarize") then Num (lit "0.5")
                    else Num (lit "0.7"));
            maxOutputTokens := Some (Num (lit "8192")) |}.
Proof.
  rewrite callTool_sent.
  destruct (run_tool_cases w name args) as [[e ->]|[msgs ->]]; [intros []|].
  destruct (callGemini_cases w msgs (or_else (field args "model") (JStr DEFAULT_MODEL))
              (tool_temperature name) None) as [[_ ->]|[->|[k [ms [Hk [Hne [Hs ->]]]]]]].
  - intros [].
  - intros [].
  - intros [<-|[]]. exists k, ms. rewrite or_else_not_undefined in Hs.
    repeat split; try assumption.
    unfold tool_temperature. cbn [gemini_request body generationConfig].
    now destruct (str_eqb name (lit "gemini_summarize")).
Qed.

Lemma request_shape_witness :
  exists k ms,
    GEMINI_API_KEY answering_world = Some k /\ k <> [] /\
    ToString (or_else (field analyze_X "model") (JStr DEFAULT_MODEL)) = inr ms /\
    url analyze_X_request = GEMINI_API_BASE ++ lit "/" ++ ms ++ lit ":generateContent" /\
    method analyze_X_request = lit "POST" /\
    headers analyze_X_request
    = [(lit "Content-Type", lit "application/json"); (lit "x-goog-api-key", k)] /\
    generationConfig (body analyze_X_request)
    = Some {| temperature := Some (Num (lit "0.7"));
              maxOutputTokens := Some (Num (lit "8192")) |}.
Proof.
  apply (request_shape answering_world (lit "gemini_analyze") analyze_X analyze_X_request).
  left. reflexivity.
Defined.


(** X5. When the answer to the request of a tool call has a status outside
    200-299, the call ends in the error "Gemini API error (status): body",
    the body being the raw text of the answer, whatever it contains. *)
Theorem http_error_is_reported (w : World) (name : jsstring) (args : JsValue)
    (req : HttpRequest) (response : Response) (t : jsstring) :
  In req (fst (callTool w name args)) ->
  fetch w req = inr response ->
  ok response = false ->
  body_text response = inr t ->
  callTool w name args =
  ([req], error_result (lit "Gemini API error (" ++ dec (status response) ++ lit "): " ++ t)).
Proof.
  intros Hin Hf Hok Ht. rewrite (callTool_sent_one w name args req Hin).
  unfold read_response. now rewrite Hf, Hok, Ht.
Qed.

Lemma http_error_is_reported_witness :
  callTool (world_of (Some (lit "test-key")) (inr overloaded_answer))
    (lit "gemini_analyze") analyze_X =
  ([analyze_X_request],
   error_result (lit "Gemini API error (" ++ dec 500 ++ lit "): "
                 ++ lit "{" ++ DQ ++ lit "error" ++ DQ ++ lit ":{" ++ DQ ++ lit "message"
                 ++ DQ ++ lit ":" ++ DQ ++ lit "overloaded" ++ DQ ++ lit "}}")).
Proof.
  apply (http_error_is_reported (world_of (Some (lit "test-key")) (inr overloaded_answer))
           (lit "gemini_analyze") analyze_X analyze_X_request overloaded_answer);
    try reflexivity.
  left. reflexivity.
Defined.

(** X6. When the answer has a 2xx status and its body carries a truthy
    [error] member, the call ends in the error "Gemini API error: " followed
    by the message of that member when it is a non-empty string, and by
    "Unknown error" when the message is missing or falsy; candidates in the
    same body are not looked at. *)
Theorem api_error_is_reported (w : World) (name : jsstring) (args : JsValue)
    (req : HttpRequest) (response : Response) (data : JsValue) :
  In req (fst (callTool w name args)) ->
  fetch w req = inr response ->
  ok response = true ->
  body_json response = inr data ->
  nullish data = false ->
  truthy (field data "error") = true ->
  (forall m, field (field data "error") "message" = JStr m -> m <> [] ->
     callTool w name args = ([req], error_result (lit "Gemini API error: " ++ m)))
  /\
  (truthy (field (field data "error") "message") = false ->
     callTool w name args =
     ([req], error_result (lit "Gemini API error: " ++ lit "Unknown error"))).
Proof.
  intros Hin Hf Hok Hj Hd He. rewrite (callTool_sent_one w name args req Hin).
  unfold read_response. rewrite Hf, Hok, Hj. cbn [negb].
  rewrite (Get_field data "error" Hd), He. fold (field (field data "error") "message").
  split.
  - intros m Hm Hne. rewrite Hm. unfold or_else.
    destruct m; [congruence|reflexivity].
  - intros Hm. unfold or_else. rewrite Hm. reflexivity.
Qed.

Lemma api_error_is_reported_witness :
  callTool (world_of (Some (lit "test-key")) (inr quota_answer))
    (lit "gemini_analyze") analyze_X =
  ([analyze_X_request], error_result (lit "Gemini API error: " ++ lit "quota exceeded")).
Proof.
  apply (api_error_is_reported (world_of (Some (lit "test-key")) (inr quota_answer))
           (lit "gemini_analyze") analyze_X analyze_X_request quota_answer
           (JObj [member "error" (JObj [member "message" (JStr (lit "quota exceeded"))])]));
    try reflexivity; try discriminate.
  left. reflexivity.
Defined.

(** X7. When the platform rejects, the error it rejects with is the error of
    the tool call, message unchanged: a rejection of fetch itself, of
    reading the text of an answer outside 2xx, or of parsing the body of a
    2xx answer as JSON. *)
Theorem rejections_are_reported (w : World) (name : jsstring) (args : JsValue)
    (req : HttpRequest) (e : Exn) :
  In req (fst (callTool w name args)) ->
  (fetch w req = inl e ->
     callTool w name args = ([req], error_result (message_of w e)))
  /\
  (forall response, fetch w req = inr response -> ok response = false ->
     body_text response = inl e ->
     callTool w name args = ([req], error_result (message_of w e)))
  /\
  (forall response, fetch w req = inr response -> ok response = true ->
     body_json response = inl e ->
     callTool w name args = ([req], error_result (message_of w e))).
Proof.
  intros Hin. rewrite (callTool_sent_one w name args req Hin). unfold read_response.
  split; [|split].
  - intros Hf. now rewrite Hf.
  - intros response Hf Hok Ht. now rewrite Hf, Hok, Ht.
  - intros response Hf Hok Hj. now rewrite Hf, Hok, Hj.
Qed.

Lemma rejections_are_reported_witness :
  callTool (world_of (Some (lit "test-key")) (inl (JsError (lit "fetch failed"))))
    (lit "gemini_analyze") analyze_X =
  ([analyze_X_request], error_result (lit "fetch failed")).
Proof.
  apply (rejections_are_reported
           (world_of (Some (lit "test-key")) (inl (JsError (lit "fetch failed"))))
           (lit "gemini_analyze") analyze_X analyze_X_request
           (JsError (lit "fetch failed"))).
  - left. reflexivity.
  - reflexivity.
Defined.

(** X8. When the answer has a 2xx status, its body parses to a value without
    a truthy [error] member and candidates[0].content.parts[0].text is
    truthy, the tool call succeeds: its result carries that text unchanged
    and no isError flag. *)
Theorem upstream_text_is_the_result (w : World) (name : jsstring) (args : JsValue)
    (req : HttpRequest) (response : Response) (data : JsValue) :
  In req (fst (callTool w name args)) ->
  fetch w req = inr response ->
  ok response = true ->
  body_json response = inr data ->
  nullish data = false ->
  truthy (field data "error") = false ->
  truthy (first_part_text data) = true ->
  callTool w name args = ([req], text_result (first_part_text data)).
Proof.
  intros Hin Hf Hok Hj Hd He Ht. rewrite (callTool_sent_one w name args req Hin).
  unfold read_response. rewrite Hf, Hok, Hj. cbn [negb].
  rewrite (Get_field data "error" Hd), He.
  unfold candidate_text. rewrite (Get_field data "candidates" Hd).
  fold (first_part_text data). now rewrite Ht.
Qed.

Lemma upstream_text_is_the_result_witness :
  callTool answering_world (lit "gemini_analyze") analyze_X =
  ([analyze_X_request], text_result (JStr (lit "hi"))).
Proof.
  apply (upstream_text_is_the_result answering_world (lit "gemini_analyze") analyze_X
           analyze_X_request (answer (lit "hi"))
           (JObj [(lit "candidates",
                   JArr [JObj [(lit "content",
                                JObj [(lit "parts",
                                       JArr [JObj [(lit "text", JStr (lit "hi"))]])])]])]));
    try reflexivity.
  left. reflexivity.
Defined.

(** X9. When the model argument is absent or falsy (undefined, null, false,
    0, the empty string), every request the tool call sends goes to the
    default model; that model is the default each tool of the catalog
    declares for its model property. *)
Theorem falsy_model_selects_default (w : World) (name : jsstring) (args : JsValue)
    (req : HttpRequest) :
  truthy (field args "model") = false ->
  In req (fst (callTool w name args)) ->
  url req = GEMINI_API_BASE ++ lit "/" ++ DEFAULT_MODEL ++ lit ":generateContent" /\
  forall t, In t tools -> schema_model_default t = JStr DEFAULT_MODEL.
Proof.
  intros Hm Hin. split.
  - rewrite callTool_sent in Hin.
    destruct (run_tool_cases w name args) as [[e He]|[msgs Hr]]; rewrite ?He, ?Hr in Hin.
    + destruct Hin.
    + unfold or_else in Hin. rewrite Hm in Hin.
      exact (callGemini_sent_url _ _ _ _ _ _ Hin).
  - intros t [<-|[<-|[<-|[]]]]; reflexivity.
Qed.

Lemma falsy_model_selects_default_witness :
  url analyze_X_request
  = GEMINI_API_BASE ++ lit "/" ++ DEFAULT_MODEL ++ lit ":generateContent" /\
  forall t, In t tools -> schema_model_default t = JStr DEFAULT_MODEL.
Proof.
  apply (falsy_model_selects_default answering_world (lit "gemini_analyze") analyze_X
           analyze_X_request).
  - reflexivity.
  - left. reflexivity.
Defined.

(** What a handler throws as an [Error] of the program's own before sending
    anything is its validation message or the message of [getApiKey]. *)
Lemma run_tool_known_unsent_error (w : World) (name : jsstring) (args : JsValue)
    (m : jsstring) :
  In (JStr name) tool_names ->
  run_tool w name args = ([], inl (JsError m)) ->
  In m [lit "prompt is required and cannot be empty";
        lit "messages array is required and cannot be empty";
        lit "content is required and cannot be empty";
        API_KEY_MESSAGE].
Proof.
  intros Hin H.
  assert (Hc : forall msgs t, callGemini w msgs (or_else (field args "model")
                                (JStr DEFAULT_MODEL)) t None = ([], inl (JsError m)) ->
               m = API_KEY_MESSAGE).
  { intros msgs t. apply callGemini_unsent_error. }
  destruct Hin as [E|[E|[E|[]]]]; injection E as <-.
  - destruct (run_tool_known w args) as [R _]. rewrite R in H.
    destruct (analyze_cases w args) as [Ha|[[f Ha]|[msgs Ha]]]; rewrite Ha in H.
    + injection H as <-. simpl. tauto.
    + discriminate H.
    + rewrite (Hc _ _ H). simpl. tauto.
  - destruct (run_tool_known w args) as [_ [R _]]. rewrite R in H.
    destruct (chat_cases w args) as [Ha|[[f Ha]|[msgs Ha]]]; rewrite Ha in H.
    + injection H as <-. simpl. tauto.
    + discriminate H.
    + rewrite (Hc _ _ H). simpl. tauto.
  - destruct (run_tool_known w args) as [_ [_ R]]. rewrite R in H.
    destruct (summarize_cases w args) as [Ha|[[f Ha]|[msgs Ha]]]; rewrite Ha in H.
    + injection H as <-. simpl. tauto.
    + discriminate H.
    + rewrite (Hc _ _ H). simpl. tauto.
Qed.

(** X10. The names the catalog lists are exactly the names the tool-call
    handler serves: the switch over the name throws the error
    "Unknown tool: " followed by the name, with nothing sent, exactly when
    the name is not in the catalog.  Names are compared as they are, case
    included. *)
Theorem unknown_tool_iff_not_listed (w : World) (name : jsstring) (args : JsValue) :
  run_tool w name args = ([], inl (JsError (lit "Unknown tool: " ++ name)))
  <-> ~ In (JStr name) tool_names.
Proof.
  split.
  - intros H Hin.
    pose proof (run_tool_known_unsent_error w name args _ Hin H) as Hm.
    destruct Hin as [E|[E|[E|[]]]]; injection E as <-;
      destruct Hm as [E|[E|[E|[E|[]]]]]; discriminate E.
  - intros Hn. apply run_tool_unknown; intros ->; apply Hn; simpl; tauto.
Qed.

Lemma unknown_tool_iff_not_listed_witness :
  run_tool answering_world (lit "Gemini_Analyze") analyze_X =
  ([], inl (JsError (lit "Unknown tool: " ++ lit "Gemini_Analyze"))).
Proof.
  apply (unknown_tool_iff_not_listed answering_world (lit "Gemini_Analyze") analyze_X).
  intros [E|[E|[E|[]]]]; discriminate E.
Defined.

(** X11. Each tool enforces the required list of its schema in the catalog:
    a call whose arguments lack a field the schema marks required ends in an
    error result whose message starts with the name of that field, and
    sends nothing. *)
Theorem schema_required_is_enforced (w : World) (t : JsValue) (name f : jsstring)
    (args : JsValue) :
  In t tools -> field t "name" = JStr name ->
  In (JStr f) (schema_required t) ->
  nullish args = false ->
  GetV args (Name f) = JUndefined ->
  exists rest, callTool w name args = ([], error_result (f ++ rest)).
Proof.
  intros Ht Hn Hf Hargs Hmiss.
  destruct Ht as [<-|[<-|[<-|[]]]]; injection Hn as <-;
    destruct Hf as [E|[]]; injection E as <-.
  - exists (lit " is required and cannot be empty").
    apply callTool_pair with (r := inl (JsError (lit "prompt is required and cannot be empty"))).
    destruct (run_tool_known w args) as [-> _].
    apply analyze_rejects; [exact Hargs|]. unfold field. now rewrite Hmiss.
  - exists (lit " array is required and cannot be empty").
    apply callTool_pair
      with (r := inl (JsError (lit "messages array is required and cannot be empty"))).
    destruct (run_tool_known w args) as [_ [-> _]].
    apply chat_rejects; [exact Hargs|]. unfold field. now rewrite Hmiss.
  - exists (lit " is required and cannot be empty").
    apply callTool_pair with (r := inl (JsError (lit "content is required and cannot be empty"))).
    destruct (run_tool_known w args) as [_ [_ ->]].
    apply summarize_rejects; [exact Hargs|]. unfold field. now rewrite Hmiss.
Qed.

Lemma schema_required_is_enforced_witness :
  exists rest,
    callTool answering_world (lit "gemini_chat") analyze_X
    = ([], error_result (lit "messages" ++ rest)).
Proof.
  apply (schema_required_is_enforced answering_world (nth 1 tools JUndefined)
           (lit "gemini_chat") (lit "messages") analyze_X); try reflexivity.
  - right. left. reflexivity.
  - left. reflexivity.
Defined.

Lemma mapM_null_turn (good rest : list JsValue) (t : JsValue) :
  Forall (fun x => nullish x = false) good -> nullish t = true ->
  mapM (fun msg =>
          r <- lift (Get msg (Name (lit "role"))) ;;
          c <- lift (Get msg (Name (lit "content"))) ;;
          ret {| role := r; parts := [ {| text := c |} ] |}) (good ++ t :: rest)
  = throw (EngineError (ReadOfNullish t (Name (lit "role")))).
Proof.
  intros Hgood Ht. induction Hgood as [|x good Hx _ IH].
  - cbn [app mapM]. now rewrite (Get_nullish t _ Ht).
  - cbn [app mapM]. rewrite IH.
    rewrite !(Get_field x) by exact Hx. now rewrite !bind_lift_inr, bind_ret.
Qed.

(** X12. A field the handlers trim that is present but no string (a number,
    a boolean, an array, an object) stops the handler with a TypeError of
    the engine, nothing sent: the prompt and, after a valid prompt, the
    context of analyze; the content and, after a valid content, the focus of
    summarize. *)
Theorem wrong_type_is_a_type_error (w : World) (args : JsValue) :
  nullish args = false ->
  (optional_string (field args "prompt") = false ->
   handleGeminiAnalyze w args = ([], inl (EngineError (NotAFunction (lit "trim")))))
  /\
  (forall p, field args "prompt" = JStr p -> blank p = false ->
   optional_string (field args "context") = false ->
   handleGeminiAnalyze w args = ([], inl (EngineError (NotAFunction (lit "trim")))))
  /\
  (optional_string (field args "content") = false ->
   handleGeminiSummarize w args = ([], inl (EngineError (NotAFunction (lit "trim")))))
  /\
  (forall c, field args "content" = JStr c -> blank c = false ->
   optional_string (field args "focus") = false ->
   handleGeminiSummarize w args = ([], inl (EngineError (NotAFunction (lit "trim"))))).
Proof.
  intros Hargs.
  assert (Hf : forall v, optional_string v = false ->
                 trimOpt v = inl (EngineError (NotAFunction (lit "trim")))).
  { intros v. destruct v; simpl; intros H; try discriminate; reflexivity. }
  split; [|split; [|split]].
  - intros H. unfold handleGeminiAnalyze. rewrite (Get_field args) by exact Hargs.
    now rewrite bind_lift_inr, (required_field_fault _ (Hf _ H)).
  - intros p Hp Hb Hc. exact (analyze_context_fault w args p Hargs Hp Hb Hc).
  - intros H. unfold handleGeminiSummarize. rewrite (Get_field args) by exact Hargs.
    now rewrite bind_lift_inr, (required_field_fault _ (Hf _ H)).
  - intros c Hc Hb Hfo. exact (summarize_focus_fault w args c Hargs Hc Hb Hfo).
Qed.

Lemma wrong_type_is_a_type_error_witness :
  handleGeminiAnalyze answering_world (JObj [member "prompt" (JNum (Num (lit "42")))])
  = ([], inl (EngineError (NotAFunction (lit "trim"))))
  /\
  handleGeminiSummarize answering_world
    (JObj [member "content" (JStr (lit "ABC")); member "focus" (JArr [JStr (lit "bugs")])])
  = ([], inl (EngineError (NotAFunction (lit "trim")))).
Proof.
  split.
  - apply (wrong_type_is_a_type_error answering_world
             (JObj [member "prompt" (JNum (Num (lit "42")))]) eq_refl).
    reflexivity.
  - destruct (wrong_type_is_a_type_error answering_world
                (JObj [member "content" (JStr (lit "ABC"));
                       member "focus" (JArr [JStr (lit "bugs")])]) eq_refl)
      as [_ [_ [_ H]]].
    apply (H (lit "ABC")); reflexivity.
Defined.

(** X13. A call of a listed tool whose arguments are undefined or null ends
    in an error result, nothing sent: reading the required field of the
    missing arguments is a TypeError, which the handler catches like any
    other error. *)
Theorem no_arguments_is_an_error (w : World) (args : JsValue) :
  nullish args = true ->
  callTool w (lit "gemini_analyze") args =
    ([], error_result (fault_text w (ReadOfNullish args (Name (lit "prompt")))))
  /\
  callTool w (lit "gemini_chat") args =
    ([], error_result (fault_text w (ReadOfNullish args (Name (lit "messages")))))
  /\
  callTool w (lit "gemini_summarize") args =
    ([], error_result (fault_text w (ReadOfNullish args (Name (lit "content"))))).
Proof.
  intros Hargs. split; [|split].
  - apply callTool_pair
      with (r := inl (EngineError (ReadOfNullish args (Name (lit "prompt"))))).
    destruct (run_tool_known w args) as [-> _].
    unfold handleGeminiAnalyze. now rewrite Get_nullish.
  - apply callTool_pair
      with (r := inl (EngineError (ReadOfNullish args (Name (lit "messages"))))).
    destruct (run_tool_known w args) as [_ [-> _]].
    unfold handleGeminiChat. now rewrite Get_nullish.
  - apply callTool_pair
      with (r := inl (EngineError (ReadOfNullish args (Name (lit "content"))))).
    destruct (run_tool_known w args) as [_ [_ ->]].
    unfold handleGeminiSummarize. now rewrite Get_nullish.
Qed.

Lemma no_arguments_is_an_error_witness :
  callTool answering_world (lit "gemini_chat") JUndefined =
  ([], error_result (lit "Cannot read properties of undefined")).
Proof.
  apply (no_arguments_is_an_error answering_world JUndefined eq_refl).
Defined.

(** X14. A chat request one of whose turns is null or undefined stops with a
    TypeError of the engine at the first such turn, nothing sent, however
    many valid turns come before or after it. *)
Theorem null_turn_is_a_type_error (w : World) (args : JsValue)
    (good rest : list JsValue) (t : JsValue) :
  nullish args = false ->
  field args "messages" = JArr (good ++ t :: rest) ->
  Forall (fun x => nullish x = false) good ->
  nullish t = true ->
  handleGeminiChat w args =
  ([], inl (EngineError (ReadOfNullish t (Name (lit "role"))))).
Proof.
  intros Hargs Hm Hgood Ht. unfold handleGeminiChat.
  rewrite !(Get_field args) by exact Hargs. rewrite Hm, bind_lift_inr.
  assert (Hlen : (array_length (JArr (good ++ t :: rest)) =? 0) = false).
  { apply N.eqb_neq. unfold array_length, elements.
    rewrite length_app. cbn [List.length]. lia. }
  rewrite Hlen. cbn [truthy isArray negb orb elements].
  now rewrite (mapM_null_turn good rest t Hgood Ht).
Qed.

Lemma null_turn_is_a_type_error_witness :
  handleGeminiChat answering_world
    (JObj [member "messages" (JArr [user_turn (lit "hi"); JNull; user_turn (lit "again")])])
  = ([], inl (EngineError (ReadOfNullish JNull (Name (lit "role"))))).
Proof.
  apply (null_turn_is_a_type_error answering_world
           (JObj [member "messages"
                    (JArr [user_turn (lit "hi"); JNull; user_turn (lit "again")])])
           [user_turn (lit "hi")] [user_turn (lit "again")] JNull); try reflexivity.
  repeat constructor.
Defined.

(** X15. A handler reads nothing of its arguments but its own fields: two
    argument values that agree on prompt, context and model get the same
    outcome from analyze, on messages and model from chat, on content, focus
    and model from summarize.  Properties the schema does not declare are
    ignored. *)
Theorem undeclared_fields_are_ignored (w : World) (args args' : JsValue) :
  nullish args = false -> nullish args' = false ->
  field args "model" = field args' "model" ->
  (field args "prompt" = field args' "prompt" ->
   field args "context" = field args' "context" ->
   handleGeminiAnalyze w args = handleGeminiAnalyze w args')
  /\
  (field args "messages" = field args' "messages" ->
   handleGeminiChat w args = handleGeminiChat w args')
  /\
  (field args "content" = field args' "content" ->
   field args "focus" = field args' "focus" ->
   handleGeminiSummarize w args = handleGeminiSummarize w args').
Proof.
  intros Hargs Hargs' Hm. split; [|split].
  - intros Hp Hc. unfold handleGeminiAnalyze.
    rewrite !(Get_field args) by exact Hargs. rewrite !(Get_field args') by exact Hargs'.
    now rewrite Hp, Hc, Hm.
  - intros Hms. unfold handleGeminiChat.
    rewrite !(Get_field args) by exact Hargs. rewrite !(Get_field args') by exact Hargs'.
    now rewrite Hms, Hm.
  - intros Hc Hf. unfold handleGeminiSummarize.
    rewrite !(Get_field args) by exact Hargs. rewrite !(Get_field args') by exact Hargs'.
    now rewrite Hc, Hf, Hm.
Qed.

Lemma undeclared_fields_are_ignored_witness :
  handleGeminiAnalyze answering_world
    (JObj [member "verbose" (JBool true); member "prompt" (JStr (lit "X"))])
  = handleGeminiAnalyze answering_world analyze_X.
Proof.
  apply (undeclared_fields_are_ignored answering_world
           (JObj [member "verbose" (JBool true); member "prompt" (JStr (lit "X"))])
           analyze_X); reflexivity.
Defined.
